(** * Journal Cover AI: a shallow embedding of the application logic

  The development follows the TypeScript sources file by file:

  - [JS]            the handful of JavaScript primitives the code relies on
                    (truthiness, [||], template holes, anchored regular
                    expressions with [String.prototype.replace], [Math.max]
                    and [Math.min] on doubles);
  - [Types]         [types.ts];
  - [GeminiService] [services/geminiService.ts];
  - [App]           the session state machine of the top-level component;
  - [ResultDisplay] [components/ResultDisplay.tsx]: metadata merge, font
                    sizing, dragging and PDF export.
  - [InputSection]  [components/InputSection.tsx]: DOI lookup, file upload
                    and the validation of a submission.

  Asynchronous handlers are cut at their [await]s: every synchronous run
  of state setters is applied as one batch (React renders once per such
  run), and the replies of the outside world (the generative backend,
  the rasteriser) are inputs. *)

From Stdlib Require Import ZArith Lia Bool List Ascii String.
From Stdlib Require Import Floats.PrimFloat.
From stdpp Require Import base option list strings gmap.

Local Open Scope string_scope.

(* ===================================================================== *)
(** * JavaScript primitives *)
(* ===================================================================== *)

Module JS.

(** A string is falsy exactly when it is empty. *)
Definition truthy (s : string) : bool :=
  match s with
  | EmptyString => false
  | String _ _ => true
  end.

(** A possibly [undefined]/[null] string used as a condition. *)
Definition truthy_opt (o : option string) : bool :=
  match o with
  | Some s => truthy s
  | None => false
  end.

(** [a || b] where [a] is a string or [undefined] and [b] a string. *)
Definition or_else (a : option string) (b : string) : string :=
  match a with
  | Some s => if truthy s then s else b
  | None => b
  end.

(** A template hole [${v}]: [undefined] prints as the word itself. *)
Definition template (v : option string) : string :=
  match v with
  | Some s => s
  | None => "undefined"
  end.

(** ** What is thrown

    Every [throw] of the sources is a plain [new Error(msg)]; the engine
    raises a [TypeError] when a property of [undefined] is read; whatever
    a library's promise rejects with is kept apart as [Rejected] (only
    its [message], possibly missing, is ever looked at). *)
Inductive exn : Type :=
| Error (message : string)
| TypeError (message : string)
| Rejected (message : option string).

Definition exn_message (e : exn) : option string :=
  match e with
  | Error m => Some m
  | TypeError m => Some m
  | Rejected m => m
  end.

(** The engine's wording for reading property [p] of [undefined]. *)
Definition reading_undefined (p : string) : exn :=
  TypeError ("Cannot read properties of undefined (reading '" +:+ p +:+ "')").

(** ** Strings

    Strings are ASCII text, one [ascii] per code unit (a character
    beyond ASCII in a literal is kept as its bytes). *)

Definition is_lower (c : ascii) : bool :=
  (97 <=? nat_of_ascii c)%nat && (nat_of_ascii c <=? 122)%nat.
Definition is_upper (c : ascii) : bool :=
  (65 <=? nat_of_ascii c)%nat && (nat_of_ascii c <=? 90)%nat.
Definition is_digit (c : ascii) : bool :=
  (48 <=? nat_of_ascii c)%nat && (nat_of_ascii c <=? 57)%nat.

Definition upper_char (c : ascii) : ascii :=
  if is_lower c then ascii_of_nat (nat_of_ascii c - 32) else c.

(** [s.toUpperCase()] as it acts on ASCII text: [a]-[z] are mapped and
    every other unit is left alone. The method itself also maps the
    letters beyond ASCII, so the handlers below take it as a
    parameter, and this function is the instance examples are
    evaluated with. *)
Fixpoint toUpperCase_ascii (s : string) : string :=
  match s with
  | EmptyString => EmptyString
  | String c rest => String (upper_char c) (toUpperCase_ascii rest)
  end.

(** What is used of [String.prototype.toUpperCase], whichever letters
    it maps: its result is empty exactly when the text is. *)
Definition upper_casing (toUpperCase : string -> string) : Prop :=
  forall v, truthy (toUpperCase v) = truthy v.

(** [s.replace(/[^a-z0-9]/gi, repl)] for a one-character [repl]. *)
Fixpoint replace_non_alnum (repl : ascii) (s : string) : string :=
  match s with
  | EmptyString => EmptyString
  | String c rest =>
      String (if is_lower c || is_upper c || is_digit c then c else repl)
        (replace_non_alnum repl rest)
  end.

(** ** Anchored regular expressions

    The three patterns of the service are all of the shape [/^.../]
    over literals, [?] and [|]; they are matched by backtracking,
    greedy options first, as the engine does. *)

Fixpoint strip_prefix (p s : string) : option string :=
  match p with
  | EmptyString => Some s
  | String a p' =>
      match s with
      | EmptyString => None
      | String b s' => if Ascii.eqb a b then strip_prefix p' s' else None
      end
  end.

Inductive regex : Type :=
| Lit (l : string)
| Opt (r : regex)
| Alt (r1 r2 : regex)
| Seq (r1 r2 : regex).

(** [re_match r s k]: match [r] at the head of [s] and hand the rest to
    the continuation [k]; the first success in backtracking order wins. *)
Fixpoint re_match (r : regex) (s : string) (k : string -> option string)
  : option string :=
  match r with
  | Lit l =>
      match strip_prefix l s with
      | Some rest => k rest
      | None => None
      end
  | Opt r' =>
      match re_match r' s k with
      | Some out => Some out
      | None => k s
      end
  | Alt r1 r2 =>
      match re_match r1 s k with
      | Some out => Some out
      | None => re_match r2 s k
      end
  | Seq r1 r2 => re_match r1 s (fun rest => re_match r2 rest k)
  end.

(** [s.replace(/^r/, repl)]: without the [g] and [m] flags the only
    possible match starts at index 0. *)
Definition replace_anchored (r : regex) (repl s : string) : string :=
  match re_match r s Some with
  | Some rest => repl +:+ rest
  | None => s
  end.

(** ** Doubles *)

Definition is_nan (f : float) : bool := negb (PrimFloat.eqb f f).

Definition is_neg_zero (f : float) : bool :=
  PrimFloat.eqb f 0 && PrimFloat.ltb (PrimFloat.div 1 f) 0.

(** [Math.max(a, b)]: NaN is contagious and [+0] is larger than [-0]. *)
Definition Math_max (a b : float) : float :=
  if is_nan a || is_nan b then PrimFloat.nan
  else if PrimFloat.ltb a b then b
  else if PrimFloat.ltb b a then a
  else if is_neg_zero a then b else a.

(** [Math.min(a, b)]. *)
Definition Math_min (a b : float) : float :=
  if is_nan a || is_nan b then PrimFloat.nan
  else if PrimFloat.ltb a b then a
  else if PrimFloat.ltb b a then b
  else if is_neg_zero a then a else b.

(** ** More string methods *)

(** [s.replace(/<[^>]*>?/gm, '')]: a match starts at a [<] and runs
    through the next [>], or to the end of the text when there is
    none; [in_tag] says whether the scan is inside such a match. *)
Fixpoint strip_tags_from (in_tag : bool) (s : string) : string :=
  match s with
  | EmptyString => EmptyString
  | String c rest =>
      if in_tag then strip_tags_from (negb (Ascii.eqb c ">")) rest
      else if Ascii.eqb c "<" then strip_tags_from true rest
      else String c (strip_tags_from false rest)
  end.

Definition strip_tags (s : string) : string := strip_tags_from false s.

(** [xs.join(sep)] *)
Fixpoint join (sep : string) (xs : list string) : string :=
  match xs with
  | [] => ""
  | x :: rest =>
      match rest with
      | [] => x
      | _ :: _ => x +:+ sep +:+ join sep rest
      end
  end.

(** [s.split('.')[0]] *)
Fixpoint before_first_dot (s : string) : string :=
  match s with
  | EmptyString => EmptyString
  | String c rest =>
      if Ascii.eqb c "." then EmptyString
      else String c (before_first_dot rest)
  end.

End JS.

(* ===================================================================== *)
(** * types.ts *)
(* ===================================================================== *)

Module Types.

Inductive CoverStyle : Type :=
| REALISTIC | ABSTRACT_3D | MINIMALIST | SURREAL | DIGITAL_ART.

Definition CoverStyle_value (s : CoverStyle) : string :=
  match s with
  | REALISTIC => "Photorealistic, highly detailed, cinematic lighting"
  | ABSTRACT_3D => "Abstract 3D data visualization, glassy materials, ethereal"
  | MINIMALIST => "Minimalist, vector art, flat design, symbolic"
  | SURREAL => "Surrealist, dreamlike, metaphorical, biological landscape"
  | DIGITAL_ART => "Digital painting, vibrant colors, intricate details"
  end.

Inductive AspectRatio : Type := SQUARE | PORTRAIT | LANDSCAPE | WIDE.

Definition AspectRatio_value (a : AspectRatio) : string :=
  match a with
  | SQUARE => "1:1"
  | PORTRAIT => "3:4"
  | LANDSCAPE => "4:3"
  | WIDE => "16:9"
  end.

Inductive GenModel : Type := FLASH_IMAGE | PRO_IMAGE.

Definition GenModel_value (m : GenModel) : string :=
  match m with
  | FLASH_IMAGE => "gemini-2.5-flash-image"
  | PRO_IMAGE => "gemini-3-pro-image-preview"
  end.

Definition GenModel_eqb (a b : GenModel) : bool :=
  match a, b with
  | FLASH_IMAGE, FLASH_IMAGE | PRO_IMAGE, PRO_IMAGE => true
  | _, _ => false
  end.

Record GenerationConfig : Type := {
  model : GenModel;
  style : CoverStyle;
  aspectRatio : AspectRatio
}.

Record ArticleData : Type := {
  title : string;
  content : string;
  doi : option string;
  authors : option string;
  journalName : option string
}.

Inductive GenerationStatus : Type :=
| idle | analyzing | generating | refining | completed | error.

End Types.

(* ===================================================================== *)
(** * services/geminiService.ts *)
(* ===================================================================== *)

Module GeminiService.

Import JS.
Import Types.

(** ** Requests and responses of [ai.models.generateContent] *)

Record Blob : Type := { mimeType : option string; data : option string }.

Record Part : Type := { text : option string; inlineData : option Blob }.

Record Content : Type := { parts : option (list Part) }.

Record Candidate : Type := { content : option Content }.

Record GenerateContentResponse : Type := {
  candidates : option (list Candidate);
  response_text : option string        (* the SDK's [response.text] *)
}.

Inductive RequestPart : Type :=
| TextPart (t : string)
| InlinePart (mime : string) (payload : string).

Inductive RequestContents : Type :=
| Prompt (t : string)                       (* contents: userPrompt *)
| Parts (ps : list RequestPart).            (* contents: { parts: [...] } *)

Inductive RequestConfig : Type :=
| TextConfig (systemInstruction : string) (thinkingBudget : Z)
| ImageConfig (ratio : AspectRatio) (imageSize : option string).

Record Request : Type := {
  req_model : string;
  req_contents : RequestContents;
  req_config : RequestConfig
}.

(** ** The host the service runs in *)

(** [window.aistudio] with its [hasSelectedApiKey], when the host has
    it; the field is what the awaited call resolves to (the two calls of
    the capability are taken to resolve, not to reject). *)
Record AiStudio : Type := { hasSelectedApiKey : bool }.

Record Host : Type := {
  API_KEY : option string;                          (* process.env.API_KEY *)
  aistudio : option AiStudio;
  generateContent : Request -> exn + GenerateContentResponse
}.

(** ** Effects: a log of the outside calls, and exceptions *)

Inductive call : Type :=
| ConsoleWarn (msg : string)
| HasSelectedApiKey
| OpenSelectKey
| GenerateContent (req : Request).

Definition M (A : Type) : Type := (list call * (exn + A))%type.

Definition ret {A} (a : A) : M A := ([], inr a).
Definition throw {A} (e : exn) : M A := ([], inl e).
Definition perform (c : call) : M unit := ([c], inr tt).

Definition bind {A B} (m : M A) (f : A -> M B) : M B :=
  match m with
  | (l, inl e) => (l, inl e)
  | (l, inr a) => let (l', r) := f a in ((l ++ l')%list, r)
  end.

Notation "x <- m ;; k" := (bind m (fun x => k))
  (at level 100, m at next level, right associativity).
Notation "m ;;; k" := (bind m (fun _ => k))
  (at level 100, right associativity).

Definition calls {A} (m : M A) : list call := fst m.
Definition outcome {A} (m : M A) : exn + A := snd m.

(** An awaited call of the backend: logged, then it rejects or resolves. *)
Definition await_generateContent (h : Host) (req : Request)
  : M GenerateContentResponse :=
  perform (GenerateContent req) ;;;
  match generateContent h req with
  | inl e => throw e
  | inr resp => ret resp
  end.

(** ** getAiClient *)

Definition api_key_missing : exn :=
  Error "API Key is missing. Please configure process.env.API_KEY.".

Definition getAiClient (h : Host) : M unit :=
  if JS.truthy_opt (API_KEY h) then ret tt
  else
    perform (ConsoleWarn
      "API_KEY is missing. Please configure it in your environment.") ;;;
    throw api_key_missing.

(** ** Step 1: generateVisualDescription *)

Definition systemInstruction (article : ArticleData) (style : CoverStyle)
  : string :=
  "
    You are an award-winning scientific illustrator and art director for journals like "
  +:+ JS.or_else (journalName article) "Nature, Science, and Cell" +:+ ".
    Your task is to convert a scientific abstract or article summary into a vivid, visually striking description for a cover art image.
    
    Rules:
    1.  NO TEXT: The image must be purely visual. Do not include charts, graphs, or words.
    2.  METAPHORICAL & ARTISTIC: Do not just depict the experiment. Use metaphors, abstract 3D structures, or hyper-realistic macro photography styles.
    3.  STYLE: Adhere to the requested style: " +:+ CoverStyle_value style +:+ ".
    4.  OUTPUT: Return ONLY the prompt string to be fed into an image generation model. Keep it concise (under 100 words) but descriptive regarding lighting, texture, composition, and subject.
  ".

Definition userPrompt (article : ArticleData) : string :=
  "
    Title: " +:+ title article +:+ "
    Content: " +:+ Types.content article +:+ "
    
    Generate the image generation prompt now.
  ".

Definition fallback_description : string :=
  "A scientific abstract representation.".

(** The argument of [generateContent] in step 1. *)
Definition description_request (article : ArticleData) (style : CoverStyle)
  : Request :=
  {| req_model := "gemini-2.5-flash";
     req_contents := Prompt (userPrompt article);
     req_config := TextConfig (systemInstruction article style) 0 |}.

Definition generateVisualDescription (h : Host)
    (article : ArticleData) (style : CoverStyle) : M string :=
  getAiClient h ;;;
  response <- await_generateContent h (description_request article style) ;;
  ret (JS.or_else (response_text response) fallback_description).

(** ** Steps 2 and 3: generateCoverImage, refineCoverImage *)

(** The credential check both image calls make for the high-quality
    model, when the host exposes the capability. *)
Definition ensure_selected_key (h : Host) (config : GenerationConfig)
  : M unit :=
  if GenModel_eqb (model config) PRO_IMAGE then
    match aistudio h with
    | Some studio =>
        perform HasSelectedApiKey ;;;
        if hasSelectedApiKey studio then ret tt
        else perform OpenSelectKey
    | None => ret tt
    end
  else ret tt.

Definition imageConfig (config : GenerationConfig) : RequestConfig :=
  ImageConfig (aspectRatio config)
    (if GenModel_eqb (model config) PRO_IMAGE then Some "2K" else None).

Definition png_data_url (payload : option string) : string :=
  "data:image/png;base64," +:+ JS.template payload.

(** [for (const part of parts) if (part.inlineData) return ...] *)
Fixpoint first_inline (ps : list Part) : option Blob :=
  match ps with
  | [] => None
  | part :: rest =>
      match inlineData part with
      | Some blob => Some blob
      | None => first_inline rest
      end
  end.

(** The tail shared by both image calls: look at
    [response.candidates[0].content.parts] and nowhere else; [msg] is
    the message of the final [throw]. *)
Definition extract_image (msg : string) (response : GenerateContentResponse)
  : M string :=
  match candidates response with
  | None => throw (Error msg)
  | Some [] => throw (reading_undefined "content")
  | Some (first :: _) =>
      match content first with
      | None => throw (reading_undefined "parts")
      | Some c =>
          match parts c with
          | None => throw (Error msg)
          | Some ps =>
              match first_inline ps with
              | Some blob => ret (png_data_url (data blob))
              | None => throw (Error msg)
              end
          end
      end
  end.

Definition no_image_data : string := "No image data found in response.".
Definition no_image_data_refinement : string :=
  "No image data found in refinement response.".

(** The argument of [generateContent] in step 2. *)
Definition image_request (visualPrompt : string) (config : GenerationConfig)
  : Request :=
  {| req_model := GenModel_value (model config);
     req_contents := Parts [TextPart visualPrompt];
     req_config := imageConfig config |}.

Definition generateCoverImage (h : Host)
    (visualPrompt : string) (config : GenerationConfig) : M string :=
  getAiClient h ;;;
  ensure_selected_key h config ;;;
  response <- await_generateContent h (image_request visualPrompt config) ;;
  extract_image no_image_data response.

(** [/^data:image\/(png|jpeg|webp);base64,/] *)
Definition data_url_prefix : JS.regex :=
  JS.Seq (JS.Lit "data:image/")
    (JS.Seq (JS.Alt (JS.Lit "png") (JS.Alt (JS.Lit "jpeg") (JS.Lit "webp")))
       (JS.Lit ";base64,")).

Definition strip_data_url (currentImageBase64 : string) : string :=
  JS.replace_anchored data_url_prefix "" currentImageBase64.

(** The argument of [generateContent] in step 3. *)
Definition refine_request (base64Data instruction : string)
    (config : GenerationConfig) : Request :=
  {| req_model := GenModel_value (model config);
     req_contents := Parts [InlinePart "image/png" base64Data;
                            TextPart instruction];
     req_config := imageConfig config |}.

Definition refineCoverImage (h : Host) (currentImageBase64 instruction : string)
    (config : GenerationConfig) : M string :=
  getAiClient h ;;;
  let base64Data := strip_data_url currentImageBase64 in
  ensure_selected_key h config ;;;
  response <- await_generateContent h
    (refine_request base64Data instruction config) ;;
  extract_image no_image_data_refinement response.

(** ** fetchDoiMetadata: the normalisation of its argument *)

(** [/^(https?:\/\/)?(dx\.)?doi\.org\//] *)
Definition doi_resolver_prefix : JS.regex :=
  JS.Seq (JS.Opt (JS.Seq (JS.Lit "http")
                    (JS.Seq (JS.Opt (JS.Lit "s")) (JS.Lit "://"))))
    (JS.Seq (JS.Opt (JS.Lit "dx.")) (JS.Lit "doi.org/")).

Definition cleanDoi (doi : string) : string :=
  JS.replace_anchored doi_resolver_prefix "" doi.

Definition crossref_url (doi : string) : string :=
  "https://api.crossref.org/works/" +:+ cleanDoi doi.

(** ** fetchDoiMetadata *)

(** The reply of the bibliographic service: [data.message] with the
    four members the function reads. *)
Record CrossrefAuthor : Type := {
  given : option string;
  family : option string
}.

Record CrossrefItem : Type := {
  item_title : option (list string);
  item_author : option (list CrossrefAuthor);
  item_abstract : option string;
  item_container_title : option (list string)     (* ['container-title'] *)
}.

(** What [fetch] resolves to: [ok], and what [json()] gives, an
    exception or [data.message] ([None] when there is no such member). *)
Record FetchResponse : Type := {
  ok : bool;
  json : exn + option CrossrefItem
}.

(** [xs?.[0]] *)
Definition first_of (xs : option (list string)) : option string :=
  match xs with
  | Some (x :: _) => Some x
  | Some [] => None
  | None => None
  end.

Definition author_name (a : CrossrefAuthor) : string :=
  JS.template (given a) +:+ " " +:+ JS.template (family a).

Definition doi_fetch_failed : exn :=
  Error "Could not fetch DOI data. Please enter text manually.".

Definition no_abstract_placeholder : string :=
  "No abstract available via DOI. Please paste content manually.".

Definition fetchDoiMetadata (fetch : string -> exn + FetchResponse)
    (doi : string) : exn + ArticleData :=
  let cleanDoi := cleanDoi doi in
  let attempt : exn + ArticleData :=
    match fetch ("https://api.crossref.org/works/" +:+ cleanDoi) with
    | inl e => inl e
    | inr response =>
        if ok response then
          match json response with
          | inl e => inl e
          | inr None => inl (reading_undefined "author")
          | inr (Some item) =>
              let authors :=
                match item_author item with
                | Some l => JS.join ", " (map author_name l)
                | None => ""
                end in
              inr {| title := JS.or_else (first_of (item_title item)) "Untitled";
                     Types.content :=
                       JS.or_else (item_abstract item) no_abstract_placeholder;
                     doi := Some cleanDoi;
                     authors := Some authors;
                     journalName :=
                       Some (JS.or_else
                               (first_of (item_container_title item)) "") |}
          end
        else inl (Error "DOI not found")
    end in
  match attempt with
  | inl _ => inl doi_fetch_failed          (* the [catch] rethrows *)
  | inr record => inr record
  end.

End GeminiService.

(* ===================================================================== *)
(** * The top-level component: the generation session *)
(* ===================================================================== *)

Module App.

Import JS.
Import Types.
Import GeminiService.

(** The six [useState] cells of the component. *)
Record Session : Type := {
  status : GenerationStatus;
  currentData : option ArticleData;
  currentConfig : option GenerationConfig;
  generatedImage : option string;
  generatedPrompt : option string;
  errorMessage : option string
}.

Definition initial : Session :=
  {| status := idle; currentData := None; currentConfig := None;
     generatedImage := None; generatedPrompt := None;
     errorMessage := None |}.

Inductive setter : Type :=
| setStatus (v : GenerationStatus)
| setCurrentData (v : option ArticleData)
| setCurrentConfig (v : option GenerationConfig)
| setGeneratedImage (v : option string)
| setGeneratedPrompt (v : option string)
| setErrorMessage (v : option string).

Definition set (u : setter) (s : Session) : Session :=
  match u with
  | setStatus v =>
      {| status := v; currentData := currentData s;
         currentConfig := currentConfig s;
         generatedImage := generatedImage s;
         generatedPrompt := generatedPrompt s;
         errorMessage := errorMessage s |}
  | setCurrentData v =>
      {| status := status s; currentData := v;
         currentConfig := currentConfig s;
         generatedImage := generatedImage s;
         generatedPrompt := generatedPrompt s;
         errorMessage := errorMessage s |}
  | setCurrentConfig v =>
      {| status := status s; currentData := currentData s;
         currentConfig := v;
         generatedImage := generatedImage s;
         generatedPrompt := generatedPrompt s;
         errorMessage := errorMessage s |}
  | setGeneratedImage v =>
      {| status := status s; currentData := currentData s;
         currentConfig := currentConfig s;
         generatedImage := v;
         generatedPrompt := generatedPrompt s;
         errorMessage := errorMessage s |}
  | setGeneratedPrompt v =>
      {| status := status s; currentData := currentData s;
         currentConfig := currentConfig s;
         generatedImage := generatedImage s;
         generatedPrompt := v;
         errorMessage := errorMessage s |}
  | setErrorMessage v =>
      {| status := status s; currentData := currentData s;
         currentConfig := currentConfig s;
         generatedImage := generatedImage s;
         generatedPrompt := generatedPrompt s;
         errorMessage := v |}
  end.

(** The setters called between two [await]s, applied in order; the
    result is the next rendered session. *)
Definition batch (us : list setter) (s : Session) : Session :=
  fold_left (fun acc u => set u acc) us s.

(** ** handleGenerate

    The list holds the sessions rendered while the handler runs, one
    per synchronous stretch; its last element is where it ends. *)

Definition generation_failed (e : exn) : list setter :=
  [ setStatus error;
    setErrorMessage
      (Some (JS.or_else (exn_message e)
               "An unexpected error occurred during generation.")) ].

Definition handleGenerate (h : Host) (data : ArticleData)
    (config : GenerationConfig) (s : Session) : list Session :=
  let s1 :=
    batch [ setStatus analyzing; setErrorMessage None;
            setGeneratedImage None; setGeneratedPrompt None;
            setCurrentData (Some data); setCurrentConfig (Some config) ] s in
  s1 ::
  match outcome (generateVisualDescription h data (style config)) with
  | inl e => [ batch (generation_failed e) s1 ]
  | inr visualPrompt =>
      let s2 :=
        batch [ setGeneratedPrompt (Some visualPrompt);
                setStatus generating ] s1 in
      s2 ::
      match outcome (generateCoverImage h visualPrompt config) with
      | inl e => [ batch (generation_failed e) s2 ]
      | inr imageUrl =>
          [ batch [ setGeneratedImage (Some imageUrl);
                    setStatus completed ] s2 ]
      end
  end.

(** ** handleRefine *)

Definition refinement_failed (e : exn) : list setter :=
  [ setStatus error;
    setErrorMessage
      (Some ("Failed to refine image. " +:+ JS.or_else (exn_message e) "")) ].

Definition handleRefine (h : Host) (instruction : string) (s : Session)
  : list Session :=
  match generatedImage s, currentConfig s with
  | Some image, Some config =>
      if JS.truthy image then
        let s1 := batch [ setStatus refining; setErrorMessage None ] s in
        s1 ::
        match outcome (refineCoverImage h image instruction config) with
        | inl e => [ batch (refinement_failed e) s1 ]
        | inr refinedImageUrl =>
            [ batch [ setGeneratedImage (Some refinedImageUrl);
                      setStatus completed ] s1 ]
        end
      else []
  | _, _ => []                       (* the guard returns at once *)
  end.

(** What the call of [refineCoverImage] made by [handleRefine] in
    session [s] comes back with; [None] when the guard returns first. *)
Definition refine_attempt (h : Host) (instruction : string) (s : Session)
  : option (exn + string) :=
  match generatedImage s, currentConfig s with
  | Some image, Some config =>
      if JS.truthy image
      then Some (outcome (refineCoverImage h image instruction config))
      else None
  | _, _ => None
  end.

(** ** handleReset, and the inline handler of the Try Again button *)

Definition handleReset (s : Session) : list Session :=
  [ batch [ setStatus idle; setGeneratedImage None; setGeneratedPrompt None;
            setCurrentData None; setCurrentConfig None ] s ].

Definition tryAgain (s : Session) : list Session :=
  [ batch [ setStatus idle ] s ].

(** The error banner, with its Try Again button, is rendered when
    [status === 'error' && errorMessage]. *)
Definition error_banner (s : Session) : bool :=
  match status s with
  | error => JS.truthy_opt (errorMessage s)
  | _ => false
  end.

(** ** The machine *)

Inductive event : Type :=
| Generate (h : Host) (data : ArticleData) (config : GenerationConfig)
| Refine (h : Host) (instruction : string)
| Reset
| TryAgain.

Definition run (ev : event) (s : Session) : list Session :=
  match ev with
  | Generate h data config => handleGenerate h data config s
  | Refine h instruction => handleRefine h instruction s
  | Reset => handleReset s
  | TryAgain => if error_banner s then tryAgain s else []
  end.

(** The three named handlers, as opposed to the banner's button. *)
Definition is_handler (ev : event) : bool :=
  match ev with
  | TryAgain => false
  | Generate _ _ _ | Refine _ _ | Reset => true
  end.

(** Where a handler leaves the session. *)
Definition after (ev : event) (s : Session) : Session :=
  List.last (run ev s) s.

(** The controls that start a handler are disabled or not rendered
    while another one is in flight, so handlers run one after another:
    [settled] are the sessions between two handlers, [reachable] adds
    those rendered while one runs. *)
Inductive settled : Session -> Prop :=
| settled_initial : settled initial
| settled_after ev s : settled s -> settled (after ev s).

Inductive reachable : Session -> Prop :=
| reachable_settled s : settled s -> reachable s
| reachable_during ev s s' : settled s -> In s' (run ev s) -> reachable s'.

(** The same, for the runs on which only [handleGenerate],
    [handleRefine] and [handleReset] are ever started. *)
Inductive settled_by_handlers : Session -> Prop :=
| handlers_initial : settled_by_handlers initial
| handlers_after ev s :
    is_handler ev = true -> settled_by_handlers s ->
    settled_by_handlers (after ev s).

Inductive reachable_by_handlers : Session -> Prop :=
| handlers_settled s : settled_by_handlers s -> reachable_by_handlers s
| handlers_during ev s s' :
    is_handler ev = true -> settled_by_handlers s -> In s' (run ev s) ->
    reachable_by_handlers s'.

(** The session invariant as the data model words it. *)
Definition image_only_in_completed_or_refining (s : Session) : Prop :=
  generatedImage s <> None -> status s = completed \/ status s = refining.

(** Between two handlers, on a run of the three handlers alone, the
    session rests in [idle] (with no image), [completed] or [error]. *)
Definition at_rest (s : Session) : Prop :=
  match status s with
  | idle => generatedImage s = None
  | completed | error => True
  | analyzing | generating | refining => False
  end.

(** Outside [completed], [refining] and [error] there is no image
    (on a run of the three handlers alone). *)
Definition image_free_until_result (s : Session) : Prop :=
  match status s with
  | idle | analyzing | generating => generatedImage s = None
  | refining | completed | error => True
  end.

(** The [isGenerating] prop handed to the input panel. *)
Definition isGenerating (s : Session) : bool :=
  match status s with
  | analyzing | generating | refining => true
  | idle | completed | error => false
  end.

(** An image string as the two image calls build it. *)
Definition is_png_data_url (image : string) : Prop :=
  exists payload, image = "data:image/png;base64," +:+ payload.

(** What a session looks like in each status. *)
Definition coherent (s : Session) : Prop :=
  match status s with
  | idle =>
      forall image, generatedImage s = Some image ->
                    is_png_data_url image /\ generatedPrompt s <> None /\
                    currentData s <> None /\ currentConfig s <> None
  | analyzing =>
      generatedImage s = None /\ generatedPrompt s = None /\
      errorMessage s = None /\
      currentData s <> None /\ currentConfig s <> None
  | generating =>
      generatedImage s = None /\ generatedPrompt s <> None /\
      errorMessage s = None /\
      currentData s <> None /\ currentConfig s <> None
  | refining | completed =>
      (exists image, generatedImage s = Some image /\ is_png_data_url image) /\
      generatedPrompt s <> None /\ errorMessage s = None /\
      currentData s <> None /\ currentConfig s <> None
  | error =>
      JS.truthy_opt (errorMessage s) = true /\
      currentData s <> None /\ currentConfig s <> None /\
      (forall image, generatedImage s = Some image ->
                     is_png_data_url image /\ generatedPrompt s <> None)
  end.

End App.

(* ===================================================================== *)
(** * components/ResultDisplay.tsx *)
(* ===================================================================== *)

Module ResultDisplay.

Import JS.

Local Open Scope Z_scope.

Record CoverMetadata : Type := {
  journalName : string;
  date : string;
  volumeInfo : string;
  website : string;
  tag : string;
  title : string;
  authors : string;
  footer : string;
  doi : string
}.

(** [keyof CoverMetadata]: the names the inputs pass to
    [setActiveField] and to [getResponsiveSize]. *)
Inductive Field : Type :=
| FJournalName | FDate | FVolumeInfo | FWebsite | FTag
| FTitle | FAuthors | FFooter | FDoi.

Definition field_name (f : Field) : string :=
  match f with
  | FJournalName => "journalName"
  | FDate => "date"
  | FVolumeInfo => "volumeInfo"
  | FWebsite => "website"
  | FTag => "tag"
  | FTitle => "title"
  | FAuthors => "authors"
  | FFooter => "footer"
  | FDoi => "doi"
  end.

Record Position : Type := { x : float; y : float }.

Record LayoutState : Type := {
  header : Position;
  meta : Position;
  tag_group : Position;                 (* [tag] *)
  content : Position
}.

(** [keyof LayoutState] *)
Inductive LayoutKey : Type := KHeader | KMeta | KTag | KContent.

Definition layout_get (l : LayoutState) (k : LayoutKey) : Position :=
  match k with
  | KHeader => header l
  | KMeta => meta l
  | KTag => tag_group l
  | KContent => content l
  end.

(** [{ ...prev, [key]: p }] *)
Definition layout_set (prev : LayoutState) (k : LayoutKey) (p : Position)
  : LayoutState :=
  match k with
  | KHeader => {| header := p; meta := meta prev;
                  tag_group := tag_group prev; content := content prev |}
  | KMeta => {| header := header prev; meta := p;
                tag_group := tag_group prev; content := content prev |}
  | KTag => {| header := header prev; meta := meta prev;
               tag_group := p; content := content prev |}
  | KContent => {| header := header prev; meta := meta prev;
                   tag_group := tag_group prev; content := p |}
  end.

Definition FONT_SIZES : list string :=
  [ "text-[8px] md:text-[10px]";
    "text-[10px] md:text-xs";
    "text-xs md:text-sm";
    "text-sm md:text-base";
    "text-base md:text-lg";
    "text-lg md:text-xl";
    "text-xl md:text-2xl";
    "text-2xl md:text-3xl";
    "text-3xl md:text-4xl";
    "text-4xl md:text-5xl";
    "text-5xl md:text-6xl";
    "text-6xl md:text-7xl";
    "text-7xl md:text-8xl";
    "text-8xl md:text-9xl";
    "text-9xl md:text-[10rem]" ].

Inductive Mode : Type := edit | layout_mode.      (* 'edit' | 'layout' *)

Record DragStart : Type := {
  mouseX : float; mouseY : float; startX : float; startY : float
}.

(** What [getBoundingClientRect()] of the canvas element reports. *)
Record DOMRect : Type := { width : float; height : float }.

(** The state cells and refs the handlers below read or write. *)
Record State : Type := {
  mode : Mode;
  isExporting : bool;
  layout : LayoutState;
  fontOffsets : gmap string Z;
  activeField : option string;
  draggingKey : option LayoutKey;
  containerRef : option DOMRect;          (* containerRef.current *)
  dragStartRef : option DragStart;        (* dragStartRef.current *)
  metadata : CoverMetadata
}.

Definition default_layout : LayoutState :=
  {| header := {| x := 5; y := 5 |};
     meta := {| x := 5; y := 13 |};
     tag_group := {| x := 70; y := 5 |};
     content := {| x := 5; y := 70 |} |}.

Definition default_metadata : CoverMetadata :=
  {| journalName := "ADVANCED SCIENCE";
     date := "DECEMBER 2025";
     volumeInfo := "VOL. 420 â€¢ NO. 69";
     website := "WWW.ADVANCEDSCIENCE.COM";
     tag := "RESEARCH ARTICLE";
     title := "Bioinspired Brush Reinforced Solid Slippery Coatings for Marine Photovoltaic Protection";
     authors := "Ling Yin, Runxiang Tan, Junyi Han, Jianing Wang, Jianjun Cheng, Daheng Wu, Tao Zhang, Liping Wang";
     footer := "FEATURED IN THIS ISSUE";
     doi := "10.1002/advs.202500123" |}.

(** The component as first rendered with its canvas mounted. *)
Definition mounted (rect : DOMRect) : State :=
  {| mode := edit; isExporting := false; layout := default_layout;
     fontOffsets := ∅; activeField := None; draggingKey := None;
     containerRef := Some rect; dragStartRef := None;
     metadata := default_metadata |}.

Inductive setter : Type :=
| setMode (v : Mode)
| setIsExporting (v : bool)
| setLayout (f : LayoutState -> LayoutState)
| setFontOffsets (f : gmap string Z -> gmap string Z)
| setActiveField (v : option string)
| setDraggingKey (v : option LayoutKey)
| setDragStart (v : option DragStart)          (* dragStartRef.current = v *)
| setMetadata (f : CoverMetadata -> CoverMetadata).

Definition set (u : setter) (s : State) : State :=
  {| mode := match u with setMode v => v | _ => mode s end;
     isExporting := match u with setIsExporting v => v | _ => isExporting s end;
     layout := match u with setLayout f => f (layout s) | _ => layout s end;
     fontOffsets :=
       match u with setFontOffsets f => f (fontOffsets s) | _ => fontOffsets s end;
     activeField := match u with setActiveField v => v | _ => activeField s end;
     draggingKey := match u with setDraggingKey v => v | _ => draggingKey s end;
     containerRef := containerRef s;
     dragStartRef := match u with setDragStart v => v | _ => dragStartRef s end;
     metadata := match u with setMetadata f => f (metadata s) | _ => metadata s end |}.

Definition batch (us : list setter) (s : State) : State :=
  fold_left (fun acc u => set u acc) us s.

(** ** Metadata sync (the first [useEffect]) *)

Section MetadataSync.

(** [String.prototype.toUpperCase] *)
Variable toUpperCase : string -> string.

Definition merge_article (articleData : Types.ArticleData) (prev : CoverMetadata)
  : CoverMetadata :=
  {| journalName :=
       or_else (option_map toUpperCase (Types.journalName articleData))
         (journalName prev);
     date := date prev;
     volumeInfo := volumeInfo prev;
     website := website prev;
     tag := tag prev;
     title := or_else (Some (Types.title articleData)) (title prev);
     authors := or_else (Types.authors articleData) (authors prev);
     footer := footer prev;
     doi := or_else (Types.doi articleData) (doi prev) |}.

Definition syncMetadata (articleData : option Types.ArticleData) (s : State)
  : State :=
  match articleData with
  | Some a => batch [ setMetadata (merge_article a) ] s
  | None => s
  end.

End MetadataSync.

(** ** Dynamic font sizing *)

(** [FONT_SIZES[i]], [undefined] outside the array. *)
Definition FONT_SIZES_at (i : Z) : option string :=
  if i <? 0 then None else FONT_SIZES !! Z.to_nat i.

(** The local [index] of [getResponsiveSize]. *)
Definition responsive_index (fontOffsets : gmap string Z) (baseIndex : Z)
    (field : string) : Z :=
  let offset := default 0 (fontOffsets !! field) in
  Z.max 0 (Z.min (Z.of_nat (length FONT_SIZES) - 1) (baseIndex + offset)).

Definition getResponsiveSize (fontOffsets : gmap string Z) (baseIndex : Z)
    (field : option string) : option string :=
  match field with
  | Some f =>
      if truthy f then FONT_SIZES_at (responsive_index fontOffsets baseIndex f)
      else FONT_SIZES_at baseIndex
  | None => FONT_SIZES_at baseIndex
  end.

Definition getJournalBaseIndex (len : Z) : Z :=
  if len <? 10 then 12
  else if len <? 20 then 11
  else if len <? 30 then 10
  else 9.

Definition getTitleBaseIndex (len : Z) : Z :=
  if len <? 30 then 8
  else if len <? 60 then 7
  else if len <? 100 then 6
  else 5.

Definition getAuthorsBaseIndex (len : Z) : Z :=
  if len <? 50 then 4
  else if len <? 100 then 2
  else 1.

(** The base index each input of the cover passes for its field. *)
Definition base_index (m : CoverMetadata) (f : Field) : Z :=
  match f with
  | FJournalName => getJournalBaseIndex (Z.of_nat (String.length (journalName m)))
  | FTitle => getTitleBaseIndex (Z.of_nat (String.length (title m)))
  | FAuthors => getAuthorsBaseIndex (Z.of_nat (String.length (authors m)))
  | FDate | FVolumeInfo | FWebsite | FTag => 2
  | FFooter | FDoi => 1
  end.

Definition bump (field : string) (delta : Z) (prev : gmap string Z)
  : gmap string Z :=
  <[ field := default 0 (prev !! field) + delta ]> prev.

Definition handleFontSizeChange (delta : Z) (s : State) : State :=
  match activeField s with
  | Some f =>
      if truthy f then batch [ setFontOffsets (bump f delta) ] s else s
  | None => s
  end.

(** ** Drag handlers *)

Local Open Scope float_scope.

Definition handleMouseDown (clientX clientY : float) (key : LayoutKey)
    (s : State) : State :=
  match mode s with
  | layout_mode =>
      batch [ setDraggingKey (Some key);
              setDragStart
                (Some {| mouseX := clientX; mouseY := clientY;
                         startX := x (layout_get (layout s) key);
                         startY := y (layout_get (layout s) key) |}) ] s
  | edit => s
  end.

(** The [onMouseMove] of the canvas element. *)
Definition handleMouseMove (clientX clientY : float) (s : State) : State :=
  match draggingKey s, dragStartRef s, containerRef s with
  | Some key, Some start, Some containerRect =>
      let deltaX := clientX - mouseX start in
      let deltaY := clientY - mouseY start in
      let deltaXPercent := (deltaX / width containerRect) * 100 in
      let deltaYPercent := (deltaY / height containerRect) * 100 in
      let newX := startX start + deltaXPercent in
      let newY := startY start + deltaYPercent in
      let newX := Math_max (-10) (Math_min 100 newX) in
      let newY := Math_max (-10) (Math_min 100 newY) in
      batch [ setLayout (fun prev =>
                layout_set prev key {| x := newX; y := newY |}) ] s
  | _, _, _ => s
  end.

Definition handleMouseUp (s : State) : State :=
  batch [ setDraggingKey None; setDragStart None ] s.

(** The [mousemove] listener the second [useEffect] keeps on [window]
    for as long as [draggingKey] is set. *)
Definition handleWindowMouseMove (clientX clientY : float) (s : State)
  : State :=
  match draggingKey s, dragStartRef s, containerRef s with
  | Some key, Some start, Some containerRect =>
      let deltaX := clientX - mouseX start in
      let deltaY := clientY - mouseY start in
      let deltaXPercent := (deltaX / width containerRect) * 100 in
      let deltaYPercent := (deltaY / height containerRect) * 100 in
      let newX := startX start + deltaXPercent in
      let newY := startY start + deltaYPercent in
      batch [ setLayout (fun prev =>
                layout_set prev key {| x := newX; y := newY |}) ] s
  | _, _, _ => s
  end.

Inductive pointer_event : Type :=
| MouseDown (key : LayoutKey) (clientX clientY : float)
| MouseMove (clientX clientY : float)            (* on the canvas *)
| WindowMouseMove (clientX clientY : float)      (* on the window *)
| MouseUp.

(** The window listeners exist only while a group is being dragged. *)
Definition pointer_step (s : State) (ev : pointer_event) : State :=
  match ev with
  | MouseDown key cx cy => handleMouseDown cx cy key s
  | MouseMove cx cy => handleMouseMove cx cy s
  | WindowMouseMove cx cy =>
      match draggingKey s with
      | Some _ => handleWindowMouseMove cx cy s
      | None => s
      end
  | MouseUp =>
      match draggingKey s with
      | Some _ => handleMouseUp s
      | None => s
      end
  end.

Definition pointer_run (evs : list pointer_event) (s : State) : State :=
  fold_left pointer_step evs s.

(** [-10 <= v <= 100] *)
Definition in_clamp_range (v : float) : bool :=
  PrimFloat.leb (-10) v && PrimFloat.leb v 100.

Definition position_in_range (p : Position) : bool :=
  in_clamp_range (x p) && in_clamp_range (y p).

Local Close Scope float_scope.

(** ** PDF export *)

(** The two libraries the export leans on: the rasteriser followed by
    [canvas.toDataURL] either throws or yields the encoded image, and
    writing the document ([addImage], [save]) may throw as well. *)
Record Exporter : Type := {
  html2canvas : exn + string;
  jsPDF : string -> string -> option exn      (* imgData, file name *)
}.

Inductive effect : Type :=
| Saved (fileName imgData : string) (pdfW pdfH : Z)
| ConsoleError (msg : string)
| Alert (msg : string).

Definition export_file_name (m : CoverMetadata) : string :=
  replace_non_alnum "_" (journalName m) +:+ "_Cover.pdf".

Definition export_failed : list effect :=
  [ ConsoleError "Export failed";
    Alert "Could not generate PDF. Please try again." ].

(** The body of the [try] with its [catch]. *)
Definition capture_and_save (w : Exporter) (m : CoverMetadata) : list effect :=
  match html2canvas w with
  | inl _ => export_failed
  | inr imgData =>
      let pdfW := 210 in
      let pdfH := 297 in
      match jsPDF w imgData (export_file_name m) with
      | Some _ => export_failed
      | None => [ Saved (export_file_name m) imgData pdfW pdfH ]
      end
  end.

(** The sessions rendered while the export runs (none when the canvas
    is not mounted), and what it did to the outside. *)
Definition handleDownloadPdf (w : Exporter) (s : State)
  : list State * list effect :=
  match containerRef s with
  | None => ([], [])
  | Some _ =>
      let prevMode := mode s in
      let s1 := batch [ setIsExporting true; setMode edit;
                        setActiveField None ] s in
      let effects := capture_and_save w (metadata s) in
      let s2 := batch [ setMode prevMode; setIsExporting false ] s1 in
      ([ s1; s2 ], effects)
  end.

Definition after_export (w : Exporter) (s : State) : State :=
  List.last (fst (handleDownloadPdf w s)) s.

(** ** Editing a field *)

Definition metadata_get (m : CoverMetadata) (f : Field) : string :=
  match f with
  | FJournalName => journalName m
  | FDate => date m
  | FVolumeInfo => volumeInfo m
  | FWebsite => website m
  | FTag => tag m
  | FTitle => title m
  | FAuthors => authors m
  | FFooter => footer m
  | FDoi => doi m
  end.

(** [{ ...prev, [field]: value }] *)
Definition metadata_set (prev : CoverMetadata) (f : Field) (value : string)
  : CoverMetadata :=
  {| journalName := match f with FJournalName => value | _ => journalName prev end;
     date := match f with FDate => value | _ => date prev end;
     volumeInfo := match f with FVolumeInfo => value | _ => volumeInfo prev end;
     website := match f with FWebsite => value | _ => website prev end;
     tag := match f with FTag => value | _ => tag prev end;
     title := match f with FTitle => value | _ => title prev end;
     authors := match f with FAuthors => value | _ => authors prev end;
     footer := match f with FFooter => value | _ => footer prev end;
     doi := match f with FDoi => value | _ => doi prev end |}.

Definition handleMetadataChange (field : Field) (value : string) (s : State)
  : State :=
  batch [ setMetadata (fun prev => metadata_set prev field value) ] s.

End ResultDisplay.

(* ===================================================================== *)
(** * components/InputSection.tsx *)
(* ===================================================================== *)

Module InputSection.

Import JS.

Inductive Tab : Type := text_tab | doi_tab | file_tab.

(** The state cells of the input panel. *)
Record State : Type := {
  activeTab : Tab;
  title : string;
  content : string;
  authors : string;
  journalName : string;
  doi : string;
  doiLoading : bool;
  fileLoading : bool;
  error : option string;
  selectedStyle : Types.CoverStyle;
  aspectRatio : Types.AspectRatio;
  model : Types.GenModel
}.

Definition initial : State :=
  {| activeTab := text_tab; title := ""; content := ""; authors := "";
     journalName := "NATURE"; doi := "";
     doiLoading := false; fileLoading := false; error := None;
     selectedStyle := Types.REALISTIC; aspectRatio := Types.PORTRAIT;
     model := Types.FLASH_IMAGE |}.

Inductive setter : Type :=
| setActiveTab (v : Tab)
| setTitle (v : string)
| setContent (v : string)
| setAuthors (v : string)
| setJournalName (v : string)
| setDoi (v : string)
| setDoiLoading (v : bool)
| setFileLoading (v : bool)
| setError (v : option string)
| setSelectedStyle (v : Types.CoverStyle)
| setAspectRatio (v : Types.AspectRatio)
| setModel (v : Types.GenModel).

Definition set (u : setter) (s : State) : State :=
  {| activeTab := match u with setActiveTab v => v | _ => activeTab s end;
     title := match u with setTitle v => v | _ => title s end;
     content := match u with setContent v => v | _ => content s end;
     authors := match u with setAuthors v => v | _ => authors s end;
     journalName := match u with setJournalName v => v | _ => journalName s end;
     doi := match u with setDoi v => v | _ => doi s end;
     doiLoading := match u with setDoiLoading v => v | _ => doiLoading s end;
     fileLoading := match u with setFileLoading v => v | _ => fileLoading s end;
     error := match u with setError v => v | _ => error s end;
     selectedStyle :=
       match u with setSelectedStyle v => v | _ => selectedStyle s end;
     aspectRatio := match u with setAspectRatio v => v | _ => aspectRatio s end;
     model := match u with setModel v => v | _ => model s end |}.

Definition batch (us : list setter) (s : State) : State :=
  fold_left (fun acc u => set u acc) us s.

(** [if (v) f(v)] for a possibly missing string. *)
Definition when_truthy (v : option string) (f : string -> setter)
  : list setter :=
  match v with
  | Some x => if truthy x then [ f x ] else []
  | None => []
  end.

Section Lookups.

(** [String.prototype.toUpperCase] *)
Variable toUpperCase : string -> string.

(** ** handleDoiFetch *)

Definition doi_fetched (data : Types.ArticleData) : list setter :=
  [ setTitle (Types.title data);
    setContent (strip_tags (Types.content data)) ]
  ++ when_truthy (Types.authors data) setAuthors
  ++ when_truthy (Types.journalName data)
       (fun v => setJournalName (toUpperCase v))
  ++ [ setActiveTab text_tab ].

Definition doi_fetch_error : string :=
  "Failed to fetch DOI. Please enter details manually.".

(** The states rendered while the handler runs: one before the
    [await], one after it ([try], [catch] and [finally] together). *)
Definition handleDoiFetch
    (fetch : string -> exn + GeminiService.FetchResponse) (s : State)
  : list State :=
  if truthy (doi s) then
    let s1 := batch [ setDoiLoading true; setError None ] s in
    [ s1;
      batch
        (match GeminiService.fetchDoiMetadata fetch (doi s) with
         | inr data => doi_fetched data
         | inl _ => [ setError (Some doi_fetch_error) ]
         end ++ [ setDoiLoading false ]) s1 ]
  else [].

(** ** handleFileUpload *)

Record File : Type := { file_name : string; file_type : string }.

(** How the [FileReader] ends: [onload] with its result, or [onerror]. *)
Inductive ReadResult : Type :=
| Loaded (result : string)
| ReadError.

Definition pdf_extracted (data : Types.ArticleData) : list setter :=
  [ setTitle (Types.title data); setContent (Types.content data) ]
  ++ when_truthy (Types.authors data) setAuthors
  ++ when_truthy (Types.journalName data)
       (fun v => setJournalName (toUpperCase v))
  ++ [ setActiveTab text_tab ].

Definition pdf_error : string :=
  "Failed to analyze PDF with AI. Please try pasting text.".

(** [extract] is what the awaited [extractPdfMetadata(base64)] ends
    with; the reader's calls themselves are taken not to throw. *)
Definition handleFileUpload (extract : string -> exn + Types.ArticleData)
    (file : option File) (read : ReadResult) (s : State) : list State :=
  match file with
  | None => []
  | Some f =>
      let s1 := batch [ setError None; setFileLoading true ] s in
      s1 ::
      if String.eqb (file_type f) "application/pdf" then
        match read with
        | Loaded base64 =>
            [ batch
                (match extract base64 with
                 | inr data => pdf_extracted data
                 | inl _ => [ setError (Some pdf_error) ]
                 end ++ [ setFileLoading false ]) s1 ]
        | ReadError =>
            [ batch [ setError (Some "Failed to read file.");
                      setFileLoading false ] s1 ]
        end
      else
        match read with
        | Loaded result =>
            if truthy result then
              [ batch [ setContent result;
                        setTitle (before_first_dot (file_name f));
                        setActiveTab text_tab;
                        setFileLoading false ] s1 ]
            else []
        | ReadError => []                   (* no [onerror] on this branch *)
        end
  end.

End Lookups.

(** ** handleGenerateClick *)

Definition validation_error : string :=
  "Please provide a title and content/abstract.".

(** The next state, and the arguments [onGenerate] is called with, if
    it is called. *)
Definition handleGenerateClick (s : State)
  : State * option (Types.ArticleData * Types.GenerationConfig) :=
  if negb (truthy (title s)) || negb (truthy (content s)) then
    (batch [ setError (Some validation_error) ] s, None)
  else
    (batch [ setError None ] s,
     Some ({| Types.title := title s;
              Types.content := content s;
              Types.doi := Some (doi s);
              Types.authors := Some (authors s);
              Types.journalName := Some (journalName s) |},
           {| Types.model := model s;
              Types.style := selectedStyle s;
              Types.aspectRatio := aspectRatio s |})).

(** The Generate button: [disabled={isGenerating || fileLoading}]. *)
Definition generate_disabled (isGenerating : bool) (s : State) : bool :=
  isGenerating || fileLoading s.

End InputSection.

(* ===================================================================== *)
(** * Concrete hosts, sessions and gestures used below *)
(* ===================================================================== *)

Module Scenario.

Import Types.
Import GeminiService.

Definition article : ArticleData :=
  {| title := "Slippery coatings"; Types.content := "We report a coating.";
     doi := Some "10.1002/advs.202500123"; authors := Some "L. Yin";
     journalName := Some "Advanced Science" |}.

Definition config : GenerationConfig :=
  {| model := FLASH_IMAGE; style := REALISTIC; aspectRatio := PORTRAIT |}.

Definition image_part (payload : string) : Part :=
  {| text := None;
     inlineData := Some {| mimeType := Some "image/png";
                           data := Some payload |} |}.

Definition text_part (t : string) : Part :=
  {| text := Some t; inlineData := None |}.

Definition candidate (ps : list Part) : Candidate :=
  {| GeminiService.content := Some {| parts := Some ps |} |}.

Definition respond (cs : option (list Candidate)) (t : option string)
  : GenerateContentResponse :=
  {| candidates := cs; response_text := t |}.

(** A backend that describes, and paints one inline image. *)
Definition painting_host : Host :=
  {| API_KEY := Some "key"; aistudio := None;
     generateContent := fun req =>
       match req_config req with
       | TextConfig _ _ => inr (respond None (Some "A glassy nebula."))
       | ImageConfig _ _ =>
           inr (respond (Some [candidate [image_part "iVBORw0KGgo="]]) None)
       end |}.

(** A backend whose replies carry neither text nor candidates. *)
Definition silent_host : Host :=
  {| API_KEY := Some "key"; aistudio := None;
     generateContent := fun _ => inr (respond None None) |}.

(** A backend that describes, but whose image reply has its only
    inline image in the second candidate. *)
Definition second_candidate_response : GenerateContentResponse :=
  respond (Some [candidate [text_part "Here is your image."];
                 candidate [image_part "iVBORw0KGgo="]]) None.

Definition second_candidate_host : Host :=
  {| API_KEY := Some "key"; aistudio := None;
     generateContent := fun req =>
       match req_config req with
       | TextConfig _ _ => inr (respond None (Some "A glassy nebula."))
       | ImageConfig _ _ => inr second_candidate_response
       end |}.

(** The session after a first successful generation. *)
Definition generated : App.Session :=
  App.after (App.Generate painting_host article config) App.initial.

(** The session reached by a generation that succeeds followed by a
    refinement the backend answers without an image. *)
Definition refinement_lost : App.Session :=
  App.after (App.Refine silent_host "Make the background darker")
    generated.

(** The same session after the banner's Try Again button. *)
Definition retried : App.Session := App.after App.TryAgain refinement_lost.

(** A canvas of 500 by 707 pixels, switched to layout mode. *)
Definition canvas : ResultDisplay.DOMRect :=
  {| ResultDisplay.width := 500; ResultDisplay.height := 707 |}.

Definition arranging : ResultDisplay.State :=
  ResultDisplay.batch [ ResultDisplay.setMode ResultDisplay.layout_mode ]
    (ResultDisplay.mounted canvas).

(** Press on the header group at (100, 100), move the pointer 500
    pixels to the right (the window listener sees it), release. *)
Definition drag_right : list ResultDisplay.pointer_event :=
  [ ResultDisplay.MouseDown ResultDisplay.KHeader 100 100;
    ResultDisplay.WindowMouseMove 600 100;
    ResultDisplay.MouseUp ].

(** The same gesture seen by the canvas element's own handler. *)
Definition drag_right_on_canvas : list ResultDisplay.pointer_event :=
  [ ResultDisplay.MouseDown ResultDisplay.KHeader 100 100;
    ResultDisplay.MouseMove 600 100;
    ResultDisplay.MouseUp ].

Definition working_exporter : ResultDisplay.Exporter :=
  {| ResultDisplay.html2canvas := inr "data:image/jpeg;base64,/9j/4AAQ";
     ResultDisplay.jsPDF := fun _ _ => None |}.

Definition failing_exporter : ResultDisplay.Exporter :=
  {| ResultDisplay.html2canvas := inl (JS.Rejected (Some "tainted canvas"));
     ResultDisplay.jsPDF := fun _ _ => None |}.

(** A host with no API key configured. *)
Definition keyless_host : Host :=
  {| API_KEY := None; aistudio := None;
     generateContent := fun _ => inr (respond None None) |}.

(** A host of the high-quality model's kind: the capability is there
    and reports that no key has been selected. *)
Definition studio_host : Host :=
  {| API_KEY := Some "key"; aistudio := Some {| hasSelectedApiKey := false |};
     generateContent := generateContent painting_host |}.

Definition pro_config : GenerationConfig :=
  {| model := PRO_IMAGE; style := SURREAL; aspectRatio := SQUARE |}.

(** The bibliographic service answering for one article. *)
Definition crossref_item : CrossrefItem :=
  {| item_title := Some ["Slippery coatings"];
     item_author := Some [ {| given := Some "Ling"; family := Some "Yin" |};
                           {| given := Some "Tao"; family := Some "Zhang" |} ];
     item_abstract := Some "<jats:p>We report a coating.</jats:p>";
     item_container_title := Some ["Advanced Science"] |}.

Definition crossref : string -> JS.exn + FetchResponse :=
  fun _ => inr {| ok := true; json := inr (Some crossref_item) |}.

(** The service answering 404. *)
Definition crossref_not_found : string -> JS.exn + FetchResponse :=
  fun _ => inr {| ok := false; json := inl (JS.Rejected None) |}.

(** The input panel with a DOI typed in. *)
Definition doi_typed : InputSection.State :=
  InputSection.batch
    [ InputSection.setActiveTab InputSection.doi_tab;
      InputSection.setDoi "https://doi.org/10.1002/advs.202500123" ]
    InputSection.initial.

Definition notes_file : InputSection.File :=
  {| InputSection.file_name := "abstract.v2.txt";
     InputSection.file_type := "text/plain" |}.

Definition paper_file : InputSection.File :=
  {| InputSection.file_name := "paper.pdf";
     InputSection.file_type := "application/pdf" |}.

(** What the DOI lookup makes of [crossref_item]. *)
Definition fetched_record : ArticleData :=
  {| title := "Slippery coatings";
     Types.content := "<jats:p>We report a coating.</jats:p>";
     doi := Some "10.1002/advs.202500123";
     authors := Some "Ling Yin, Tao Zhang";
     journalName := Some "Advanced Science" |}.

(** Press on the tag group, wander over the canvas and the window,
    release; then move on without a button held. *)
Definition drag_tag_then_hover : list ResultDisplay.pointer_event :=
  [ ResultDisplay.MouseDown ResultDisplay.KTag 400 60;
    ResultDisplay.MouseMove 380 90;
    ResultDisplay.WindowMouseMove 350 120;
    ResultDisplay.MouseUp;
    ResultDisplay.MouseMove 10 10 ].

Definition hover : list ResultDisplay.pointer_event :=
  [ ResultDisplay.MouseMove 10 10; ResultDisplay.WindowMouseMove 300 300;
    ResultDisplay.MouseUp; ResultDisplay.MouseMove 20 40 ].

End Scenario.

(* ===================================================================== *)
(** * Specification-side notions *)
(* ===================================================================== *)

Module Spec.

(** [clamp(v, lo, hi)] *)
Definition clamp (v lo hi : Z) : Z :=
  if (v <? lo)%Z then lo else if (hi <? v)%Z then hi else v.

(** The resolver prefixes a DOI may be written with: [http://] or
    [https://] or nothing, then [dx.] or nothing, then [doi.org/]. *)
Definition resolver_prefixes : list string :=
  [ "https://dx.doi.org/"; "https://doi.org/";
    "http://dx.doi.org/"; "http://doi.org/";
    "dx.doi.org/"; "doi.org/" ].

Definition has_resolver_prefix (X : string) : bool :=
  existsb (fun p => String.prefix p X) resolver_prefixes.

(** The prefixes a regular expression matches. *)
Fixpoint matches (r : JS.regex) (p : string) : Prop :=
  match r with
  | JS.Lit l => p = l
  | JS.Opt r' => p = "" \/ matches r' p
  | JS.Alt r1 r2 => matches r1 p \/ matches r2 p
  | JS.Seq r1 r2 =>
      exists p1 p2, p = p1 +:+ p2 /\ matches r1 p1 /\ matches r2 p2
  end.

(** No inline image part anywhere in the response. *)
Definition part_is_text (p : GeminiService.Part) : bool :=
  match GeminiService.inlineData p with Some _ => false | None => true end.

Definition candidate_has_no_image (c : GeminiService.Candidate) : bool :=
  match GeminiService.content c with
  | Some ct =>
      match GeminiService.parts ct with
      | Some ps => forallb part_is_text ps
      | None => true
      end
  | None => true
  end.

Definition no_image_in_any_candidate
    (r : GeminiService.GenerateContentResponse) : bool :=
  match GeminiService.candidates r with
  | Some cs => forallb candidate_has_no_image cs
  | None => true
  end.

(** No inline image part in the first candidate. *)
Definition no_image_in_first_candidate
    (r : GeminiService.GenerateContentResponse) : bool :=
  match GeminiService.candidates r with
  | None => true
  | Some [] => true
  | Some (c :: _) => candidate_has_no_image c
  end.

(** The replies on which [candidates[0].content] can be read: those
    with no [candidates] at all, and those whose first candidate is
    there and has content. *)
Definition first_candidate_readable
    (r : GeminiService.GenerateContentResponse) : bool :=
  match GeminiService.candidates r with
  | None => true
  | Some [] => false
  | Some (c :: _) =>
      match GeminiService.content c with
      | Some _ => true
      | None => false
      end
  end.

(** The data-URL prefixes [refineCoverImage] strips. *)
Definition image_data_url_prefixes : list string :=
  [ "data:image/png;base64,"; "data:image/jpeg;base64,";
    "data:image/webp;base64," ].

(** Letters, digits and the underscore. *)
Definition file_name_char (c : ascii) : bool :=
  JS.is_lower c || JS.is_upper c || JS.is_digit c || Ascii.eqb c "_".

(** Every character of [s] satisfies [P]. *)
Fixpoint all_chars (P : ascii -> bool) (s : string) : bool :=
  match s with
  | EmptyString => true
  | String c rest => P c && all_chars P rest
  end.

Definition is_mouse_down (ev : ResultDisplay.pointer_event) : bool :=
  match ev with
  | ResultDisplay.MouseDown _ _ _ => true
  | _ => false
  end.

(** Letters and digits. *)
Definition is_alnum (c : ascii) : bool :=
  JS.is_lower c || JS.is_upper c || JS.is_digit c.

(** The event is a press on the group [k]. *)
Definition presses (k : ResultDisplay.LayoutKey)
    (ev : ResultDisplay.pointer_event) : bool :=
  match ev, k with
  | ResultDisplay.MouseDown ResultDisplay.KHeader _ _, ResultDisplay.KHeader
  | ResultDisplay.MouseDown ResultDisplay.KMeta _ _, ResultDisplay.KMeta
  | ResultDisplay.MouseDown ResultDisplay.KTag _ _, ResultDisplay.KTag
  | ResultDisplay.MouseDown ResultDisplay.KContent _ _, ResultDisplay.KContent =>
      true
  | _, _ => false
  end.

(** The export got its image and wrote the document. *)
Definition export_succeeds (w : ResultDisplay.Exporter)
    (m : ResultDisplay.CoverMetadata) : Prop :=
  exists imgData,
    ResultDisplay.html2canvas w = inr imgData /\
    ResultDisplay.jsPDF w imgData (ResultDisplay.export_file_name m) = None.

(** The character does not open a tag. *)
Definition not_tag_open (c : ascii) : bool := negb (Ascii.eqb c "<").

(** The form fields of the input panel, apart from its flags. *)
Definition same_form (a b : InputSection.State) : Prop :=
  InputSection.activeTab a = InputSection.activeTab b /\
  InputSection.title a = InputSection.title b /\
  InputSection.content a = InputSection.content b /\
  InputSection.authors a = InputSection.authors b /\
  InputSection.journalName a = InputSection.journalName b /\
  InputSection.doi a = InputSection.doi b /\
  InputSection.selectedStyle a = InputSection.selectedStyle b /\
  InputSection.aspectRatio a = InputSection.aspectRatio b /\
  InputSection.model a = InputSection.model b.

End Spec.

(* ===================================================================== *)
(** * Facts about the primitives *)
(* ===================================================================== *)

Module JSFacts.

Import JS.

#[local] Arguments String.append !_ _ / : simpl nomatch.

Lemma strip_prefix_app (p s : string) : strip_prefix p (p +:+ s) = Some s.
Proof.
  induction p as [|a p IH]; simpl; [reflexivity|].
  rewrite Ascii.eqb_refl. exact IH.
Qed.

Lemma strip_prefix_Some (p : string) :
  forall s r, strip_prefix p s = Some r -> s = p +:+ r.
Proof.
  induction p as [|a p IH]; simpl; intros s r H.
  - congruence.
  - destruct s as [|b s]; [discriminate|].
    destruct (Ascii.eqb_spec a b) as [->|]; [|discriminate].
    f_equal. now apply IH.
Qed.

Lemma prefix_app (p s : string) : String.prefix p (p +:+ s) = true.
Proof.
  induction p as [|a p IH]; simpl.
  - now destruct s.
  - destruct (ascii_dec a a); [exact IH | congruence].
Qed.

Lemma append_assoc (a b c : string) : (a +:+ b) +:+ c = a +:+ (b +:+ c).
Proof. induction a as [|x a IH]; simpl; [reflexivity | now rewrite IH]. Qed.

(** Whatever the matcher accepts splits the input into a matched
    prefix and the rest the continuation accepted. *)
Lemma re_match_sound (r : regex) :
  forall s k out,
    re_match r s k = Some out ->
    exists p rest, s = p +:+ rest /\ Spec.matches r p /\ k rest = Some out.
Proof.
  induction r as [l | r IH | r1 IH1 r2 IH2 | r1 IH1 r2 IH2];
    simpl; intros s k out H.
  - destruct (strip_prefix l s) as [rest|] eqn:E; [|discriminate].
    exists l, rest. split; [now apply strip_prefix_Some | now split].
  - destruct (re_match r s k) as [o|] eqn:E.
    + destruct (IH _ _ _ E) as (p & rest & -> & Hp & Hk).
      exists p, rest. repeat split; [now right | congruence].
    + exists "", s. repeat split; [now left | exact H].
  - destruct (re_match r1 s k) as [o|] eqn:E.
    + destruct (IH1 _ _ _ E) as (p & rest & -> & Hp & Hk).
      exists p, rest. repeat split; [now left | congruence].
    + destruct (IH2 _ _ _ H) as (p & rest & -> & Hp & Hk).
      exists p, rest. repeat split; [now right | exact Hk].
  - destruct (IH1 _ _ _ H) as (p1 & rest1 & -> & Hp1 & Hk1).
    destruct (IH2 _ _ _ Hk1) as (p2 & rest2 & -> & Hp2 & Hk2).
    exists (p1 +:+ p2), rest2. split; [now rewrite append_assoc|].
    split; [now exists p1, p2 | exact Hk2].
Qed.

Lemma truthy_toUpperCase : upper_casing toUpperCase_ascii.
Proof. intros s. now destruct s. Qed.

Lemma truthy_false (s : string) : truthy s = false <-> s = "".
Proof. destruct s; simpl; split; congruence. Qed.

Lemma truthy_true (s : string) : truthy s = true <-> s <> "".
Proof. destruct s; simpl; split; congruence. Qed.

End JSFacts.

(* ===================================================================== *)
(** * The service *)
(* ===================================================================== *)

Module ServiceProofs.

Import JS.
Import Types.
Import GeminiService.
Import JSFacts.

#[local] Arguments String.append !_ _ / : simpl nomatch.

Lemma outcome_bind {A B} (m : M A) (f : A -> M B) :
  outcome (bind m f) =
  match outcome m with
  | inl e => inl e
  | inr a => outcome (f a)
  end.
Proof.
  destruct m as [l [e|a]]; simpl; [reflexivity|].
  now destruct (f a).
Qed.

Lemma calls_bind {A B} (m : M A) (f : A -> M B) :
  calls (bind m f) =
  match outcome m with
  | inl _ => calls m
  | inr a => (calls m ++ calls (f a))%list
  end.
Proof.
  destruct m as [l [e|a]]; simpl; [reflexivity|].
  now destruct (f a).
Qed.

Lemma outcome_getAiClient (h : Host) :
  outcome (getAiClient h) =
  if truthy_opt (API_KEY h) then inr tt else inl api_key_missing.
Proof. unfold getAiClient. now destruct (truthy_opt (API_KEY h)). Qed.

Lemma outcome_ensure_selected_key (h : Host) (config : GenerationConfig) :
  outcome (ensure_selected_key h config) = inr tt.
Proof.
  unfold ensure_selected_key.
  destruct (GenModel_eqb _ _); [|reflexivity].
  destruct (aistudio h) as [[[|]]|]; reflexivity.
Qed.

Lemma outcome_await (h : Host) (req : Request) :
  outcome (await_generateContent h req) = generateContent h req.
Proof.
  unfold await_generateContent. rewrite outcome_bind. simpl.
  now destruct (generateContent h req).
Qed.

(** Step 1 in one equation. *)
Lemma outcome_generateVisualDescription h article style :
  outcome (generateVisualDescription h article style) =
  if truthy_opt (API_KEY h) then
    match generateContent h (description_request article style) with
    | inl e => inl e
    | inr response =>
        inr (or_else (response_text response) fallback_description)
    end
  else inl api_key_missing.
Proof.
  unfold generateVisualDescription.
  rewrite outcome_bind, outcome_getAiClient.
  destruct (truthy_opt (API_KEY h)); [|reflexivity].
  rewrite outcome_bind, outcome_await.
  now destruct (generateContent h _).
Qed.

(** Step 2 in one equation. *)
Lemma outcome_generateCoverImage h visualPrompt config :
  outcome (generateCoverImage h visualPrompt config) =
  if truthy_opt (API_KEY h) then
    match generateContent h (image_request visualPrompt config) with
    | inl e => inl e
    | inr response => outcome (extract_image no_image_data response)
    end
  else inl api_key_missing.
Proof.
  unfold generateCoverImage.
  rewrite outcome_bind, outcome_getAiClient.
  destruct (truthy_opt (API_KEY h)); [|reflexivity].
  rewrite outcome_bind, outcome_ensure_selected_key.
  rewrite outcome_bind, outcome_await.
  now destruct (generateContent h _).
Qed.

(** Step 3 in one equation. *)
Lemma outcome_refineCoverImage h image instruction config :
  outcome (refineCoverImage h image instruction config) =
  if truthy_opt (API_KEY h) then
    match generateContent h
            (refine_request (strip_data_url image) instruction config) with
    | inl e => inl e
    | inr response =>
        outcome (extract_image no_image_data_refinement response)
    end
  else inl api_key_missing.
Proof.
  unfold refineCoverImage.
  rewrite outcome_bind, outcome_getAiClient.
  destruct (truthy_opt (API_KEY h)); [|reflexivity].
  cbv zeta.
  rewrite outcome_bind, outcome_ensure_selected_key.
  rewrite outcome_bind, outcome_await.
  now destruct (generateContent h _).
Qed.

Lemma first_inline_None (ps : list Part) :
  first_inline ps = None <-> forallb Spec.part_is_text ps = true.
Proof.
  induction ps as [|p ps IH]; simpl; [tauto|].
  unfold Spec.part_is_text at 1.
  destruct (inlineData p); simpl; [split; discriminate | exact IH].
Qed.

(** On a reply whose first candidate can be read, the final [throw]
    is reached exactly when that candidate shows no inline image. *)
Lemma extract_image_throws (msg : string) (r : GenerateContentResponse) :
  Spec.first_candidate_readable r = true ->
  (outcome (extract_image msg r) = inl (Error msg) <->
   Spec.no_image_in_first_candidate r = true).
Proof.
  unfold extract_image, Spec.no_image_in_first_candidate,
    Spec.first_candidate_readable, Spec.candidate_has_no_image.
  destruct (candidates r) as [[|c cs]|]; simpl;
    [discriminate | | tauto].
  destruct (GeminiService.content c) as [ct|]; simpl;
    [intros _ | discriminate].
  destruct (parts ct) as [ps|]; simpl; [|tauto].
  rewrite <- first_inline_None.
  destruct (first_inline ps); simpl; split; congruence.
Qed.

(** A returned image is the first inline part of the first candidate,
    behind the PNG data-URL prefix. *)
Lemma extract_image_returns (msg : string) (r : GenerateContentResponse)
    (url : string) :
  outcome (extract_image msg r) = inr url ->
  exists c cs ct ps blob,
    candidates r = Some (c :: cs) /\ GeminiService.content c = Some ct /\
    parts ct = Some ps /\ first_inline ps = Some blob /\
    url = png_data_url (data blob).
Proof.
  unfold extract_image.
  destruct (candidates r) as [[|c cs]|]; simpl; try discriminate.
  destruct (GeminiService.content c) as [ct|] eqn:Ec; simpl;
    try discriminate.
  destruct (parts ct) as [ps|] eqn:Ep; simpl; try discriminate.
  destruct (first_inline ps) as [blob|] eqn:E; simpl; try discriminate.
  intros [= <-]. now exists c, cs, ct, ps, blob.
Qed.

Lemma strip_png_data_url (payload : string) :
  strip_data_url ("data:image/png;base64," +:+ payload) = payload.
Proof. reflexivity. Qed.

Lemma matches_doi_resolver_prefix (p : string) :
  Spec.matches doi_resolver_prefix p -> In p Spec.resolver_prefixes.
Proof.
  simpl.
  intros (p1 & p2 & -> & H1 & (q1 & q2 & -> & H2 & ->)).
  destruct H1 as [-> | (a & b & -> & -> & (c & d & -> & Hs & ->))];
    destruct H2 as [-> | ->]; try destruct Hs as [-> | ->]; simpl; tauto.
Qed.

Lemma cleanDoi_bare (X : string) :
  Spec.has_resolver_prefix X = false -> cleanDoi X = X.
Proof.
  intros Hno. unfold cleanDoi, replace_anchored.
  destruct (re_match doi_resolver_prefix X Some) as [rest|] eqn:E;
    [exfalso | reflexivity].
  destruct (re_match_sound _ _ _ _ E) as (p & rest' & -> & Hp & _).
  apply matches_doi_resolver_prefix in Hp.
  unfold Spec.has_resolver_prefix in Hno.
  assert (existsb (fun q => String.prefix q (p +:+ rest'))
            Spec.resolver_prefixes = true) as Hyes; [|congruence].
  apply existsb_exists. exists p. split; [exact Hp | apply prefix_app].
Qed.

Lemma calls_extract_image (msg : string) (r : GenerateContentResponse) :
  calls (extract_image msg r) = [].
Proof.
  unfold extract_image.
  destruct (candidates r) as [[|c cs]|]; try reflexivity.
  destruct (GeminiService.content c) as [ct|]; try reflexivity.
  destruct (parts ct) as [ps|]; try reflexivity.
  now destruct (first_inline ps).
Qed.

Lemma calls_await (h : Host) (req : Request) :
  calls (await_generateContent h req) = [GenerateContent req].
Proof.
  unfold await_generateContent. rewrite calls_bind. simpl.
  now destruct (generateContent h req).
Qed.

(** With a key configured, the refine call reaches the backend with
    the stripped image as its inline part. *)
Lemma refineCoverImage_sends h image instruction config :
  truthy_opt (API_KEY h) = true ->
  In (GenerateContent
        (refine_request (strip_data_url image) instruction config))
     (calls (refineCoverImage h image instruction config)).
Proof.
  intros Hkey. unfold refineCoverImage.
  rewrite calls_bind, outcome_getAiClient, Hkey. cbv zeta.
  apply in_or_app. right.
  rewrite calls_bind, outcome_ensure_selected_key.
  apply in_or_app. right.
  rewrite calls_bind, outcome_await, calls_await.
  destruct (generateContent h _); simpl; auto.
Qed.

(** C7. For every DOI string [X] that does not itself start with a
    resolver prefix, the normalisation made by [fetchDoiMetadata] maps
    [https://doi.org/X], [http://dx.doi.org/X] and the bare [X] to
    exactly [X]. *)
Theorem cleanDoi_strips_resolver_prefix (X : string) :
  Spec.has_resolver_prefix X = false ->
  cleanDoi ("https://doi.org/" +:+ X) = X /\
  cleanDoi ("http://dx.doi.org/" +:+ X) = X /\
  cleanDoi X = X.
Proof.
  intros Hno.
  split; [reflexivity | split; [reflexivity | now apply cleanDoi_bare]].
Qed.

Lemma cleanDoi_strips_resolver_prefix_witness :
  Spec.has_resolver_prefix "10.1038/s41586-023-06000-z" = false /\
  cleanDoi "https://doi.org/10.1038/s41586-023-06000-z"
    = "10.1038/s41586-023-06000-z" /\
  cleanDoi "http://dx.doi.org/10.1038/s41586-023-06000-z"
    = "10.1038/s41586-023-06000-z" /\
  cleanDoi "10.1038/s41586-023-06000-z" = "10.1038/s41586-023-06000-z".
Proof.
  split; [reflexivity|].
  apply (cleanDoi_strips_resolver_prefix "10.1038/s41586-023-06000-z").
  reflexivity.
Defined.

(** C9. [generateVisualDescription] never fails because the backend's
    text is empty: whenever the backend answers, the call returns, and
    it returns the fixed fallback when the text is empty or absent; an
    error comes out only when the credential is missing or the
    backend call itself throws, and it is that very error. *)
Theorem generateVisualDescription_falls_back h article style :
  (forall response,
      truthy_opt (API_KEY h) = true ->
      generateContent h (description_request article style) = inr response ->
      outcome (generateVisualDescription h article style)
        = inr (or_else (response_text response)
                 "A scientific abstract representation.") /\
      (response_text response = None \/ response_text response = Some "" ->
       outcome (generateVisualDescription h article style)
         = inr "A scientific abstract representation.")) /\
  (forall e,
      outcome (generateVisualDescription h article style) = inl e ->
      (truthy_opt (API_KEY h) = false /\ e = api_key_missing) \/
      generateContent h (description_request article style) = inl e).
Proof.
  rewrite outcome_generateVisualDescription. split.
  - intros response -> ->. split; [reflexivity|].
    now intros [-> | ->].
  - intros e. destruct (truthy_opt (API_KEY h)).
    + destruct (generateContent h _); [|discriminate].
      intros [= ->]. now right.
    + intros [= <-]. now left.
Qed.

Lemma generateVisualDescription_falls_back_witness :
  outcome (generateVisualDescription Scenario.silent_host
             Scenario.article REALISTIC)
    = inr "A scientific abstract representation.".
Proof.
  apply (proj1 (generateVisualDescription_falls_back Scenario.silent_host
                  Scenario.article REALISTIC)
           (Scenario.respond None None));
    [reflexivity | reflexivity | now left].
Defined.

(** C10. An image string returned by [generateCoverImage] or by
    [refineCoverImage] is the prefix [data:image/png;base64,] followed
    by the payload of the first inline part of the backend's reply;
    the prefix stripping of [refineCoverImage] gives back exactly that
    payload, and it is what a later refine call sends. *)
Theorem image_data_url_round_trip h :
  (forall visualPrompt config url,
      outcome (generateCoverImage h visualPrompt config) = inr url ->
      exists response c cs ct ps blob,
        generateContent h (image_request visualPrompt config) = inr response /\
        candidates response = Some (c :: cs) /\
        GeminiService.content c = Some ct /\ parts ct = Some ps /\
        first_inline ps = Some blob /\
        url = "data:image/png;base64," +:+ template (data blob) /\
        strip_data_url url = template (data blob)) /\
  (forall image instruction config url,
      outcome (refineCoverImage h image instruction config) = inr url ->
      exists response c cs ct ps blob,
        generateContent h
          (refine_request (strip_data_url image) instruction config)
          = inr response /\
        candidates response = Some (c :: cs) /\
        GeminiService.content c = Some ct /\ parts ct = Some ps /\
        first_inline ps = Some blob /\
        url = "data:image/png;base64," +:+ template (data blob) /\
        strip_data_url url = template (data blob)) /\
  (forall payload instruction config,
      strip_data_url ("data:image/png;base64," +:+ payload) = payload /\
      (truthy_opt (API_KEY h) = true ->
       In (GenerateContent (refine_request payload instruction config))
          (calls (refineCoverImage h ("data:image/png;base64," +:+ payload)
                    instruction config)))).
Proof.
  split; [|split].
  - intros visualPrompt config url.
    rewrite outcome_generateCoverImage.
    destruct (truthy_opt (API_KEY h)); [|discriminate].
    destruct (generateContent h _) as [e|response]; [discriminate|].
    intros H. apply extract_image_returns in H.
    destruct H as (c & cs & ct & ps & blob & ? & ? & ? & ? & ->).
    exists response, c, cs, ct, ps, blob.
    repeat split; assumption.
  - intros image instruction config url.
    rewrite outcome_refineCoverImage.
    destruct (truthy_opt (API_KEY h)); [|discriminate].
    destruct (generateContent h _) as [e|response]; [discriminate|].
    intros H. apply extract_image_returns in H.
    destruct H as (c & cs & ct & ps & blob & ? & ? & ? & ? & ->).
    exists response, c, cs, ct, ps, blob.
    repeat split; assumption.
  - intros payload instruction config. split; [reflexivity|].
    intros Hkey.
    rewrite <- (strip_png_data_url payload) at 1.
    now apply refineCoverImage_sends.
Qed.

Lemma image_data_url_round_trip_witness :
  exists response c cs ct ps blob,
    generateContent Scenario.painting_host
      (image_request "A glassy nebula." Scenario.config) = inr response /\
    candidates response = Some (c :: cs) /\
    GeminiService.content c = Some ct /\ parts ct = Some ps /\
    first_inline ps = Some blob /\
    "data:image/png;base64,iVBORw0KGgo="
      = "data:image/png;base64," +:+ template (data blob) /\
    strip_data_url "data:image/png;base64,iVBORw0KGgo="
      = template (data blob).
Proof.
  apply (proj1 (image_data_url_round_trip Scenario.painting_host)
           "A glassy nebula." Scenario.config).
  reflexivity.
Defined.

End ServiceProofs.

(* ===================================================================== *)
(** * The session state machine *)
(* ===================================================================== *)

Module AppProofs.

Import JS.
Import Types.
Import GeminiService.
Import App.

Lemma after_generate_at_rest h data config s :
  at_rest (after (Generate h data config) s).
Proof.
  unfold after, run, handleGenerate.
  destruct (outcome (generateVisualDescription h data (style config)))
    as [e|visualPrompt]; [exact I|].
  destruct (outcome (generateCoverImage h visualPrompt config));
    exact I.
Qed.

Lemma after_refine_at_rest h instruction s :
  at_rest s -> at_rest (after (Refine h instruction) s).
Proof.
  intros Hs. unfold after, run, handleRefine.
  destruct (generatedImage s) as [image|]; [|exact Hs].
  destruct (currentConfig s) as [config|]; [|exact Hs].
  destruct (truthy image); [|exact Hs].
  destruct (outcome (refineCoverImage h image instruction config));
    exact I.
Qed.

Lemma settled_at_rest s : settled_by_handlers s -> at_rest s.
Proof.
  induction 1 as [|ev s Hev Hs IH]; [reflexivity|].
  destruct ev as [h data config | h instruction | |].
  - apply after_generate_at_rest.
  - now apply after_refine_at_rest.
  - reflexivity.
  - discriminate Hev.
Qed.

Lemma settled_by_handlers_settled s : settled_by_handlers s -> settled s.
Proof. induction 1; [apply settled_initial | now apply settled_after]. Qed.

(** Between two transitions no call is in flight: the session is in
    [idle], [completed] or [error]. *)
Lemma settled_not_busy s : settled s -> isGenerating s = false.
Proof.
  unfold isGenerating.
  induction 1 as [|ev s Hs IH]; [reflexivity|].
  unfold after. destruct ev as [h data config | h instruction | |]; cbn [run].
  - unfold handleGenerate.
    destruct (outcome (generateVisualDescription h data (style config)))
      as [e|visualPrompt]; [reflexivity|].
    now destruct (outcome (generateCoverImage h visualPrompt config)).
  - unfold handleRefine.
    destruct (generatedImage s) as [image|]; [|exact IH].
    destruct (currentConfig s) as [config|]; [|exact IH].
    destruct (truthy image); [|exact IH].
    now destruct (outcome (refineCoverImage h image instruction config)).
  - reflexivity.
  - destruct (error_banner s); [reflexivity | exact IH].
Qed.

(** While [handleGenerate] runs, and where it ends in [error], there
    is no image. *)
Lemma during_generate h data config s s' :
  In s' (handleGenerate h data config s) ->
  (status s' = analyzing \/ status s' = generating \/ status s' = error)
    /\ generatedImage s' = None
  \/ status s' = completed.
Proof.
  unfold handleGenerate.
  destruct (outcome (generateVisualDescription h data (style config)))
    as [e|visualPrompt].
  - intros [<- | [<- | []]]; left; simpl; tauto.
  - destruct (outcome (generateCoverImage h visualPrompt config)).
    + intros [<- | [<- | [<- | []]]]; left; simpl; tauto.
    + intros [<- | [<- | [<- | []]]]; simpl; tauto.
Qed.

Lemma during_refine h instruction s s' :
  In s' (handleRefine h instruction s) ->
  status s' = refining \/ status s' = completed \/ status s' = error.
Proof.
  unfold handleRefine.
  destruct (generatedImage s) as [image|]; [|intros []].
  destruct (currentConfig s) as [config|]; [|intros []].
  destruct (truthy image); [|intros []].
  destruct (outcome (refineCoverImage h image instruction config));
    intros [<- | [<- | []]]; simpl; tauto.
Qed.

(** When [handleRefine] gets past its guard and the call fails, the
    handler ends in [error] and has never touched the image. *)
Lemma after_failed_refine h instruction s e :
  refine_attempt h instruction s = Some (inl e) ->
  status (after (Refine h instruction) s) = error /\
  generatedImage (after (Refine h instruction) s) = generatedImage s.
Proof.
  unfold refine_attempt, after, run, handleRefine.
  destruct (generatedImage s) as [image|] eqn:Himage; [|discriminate].
  destruct (currentConfig s) as [config|]; [|discriminate].
  destruct (truthy image); [|discriminate].
  intros [= ->]. split; [reflexivity | exact Himage].
Qed.

(** When the image call fails, [handleGenerate] ends in [error] with
    no image, whatever the session held before. *)
Lemma after_failed_generate h data config s visualPrompt e :
  outcome (generateVisualDescription h data (style config))
    = inr visualPrompt ->
  outcome (generateCoverImage h visualPrompt config) = inl e ->
  status (after (Generate h data config) s) = error /\
  generatedImage (after (Generate h data config) s) = None.
Proof.
  unfold after, run, handleGenerate. intros -> ->. now split.
Qed.

Lemma reachable_image_free_until_result s :
  reachable_by_handlers s -> image_free_until_result s.
Proof.
  unfold image_free_until_result.
  intros [s0 Hs | ev s0 s' Hev Hs Hin].
  - apply settled_at_rest in Hs. unfold at_rest in Hs.
    now destruct (status s0).
  - destruct ev as [h data config | h instruction | |]; cbn [run] in Hin.
    + apply during_generate in Hin.
      destruct Hin as [[H Hnone] | H].
      * destruct H as [H | [H | H]]; rewrite H; try exact Hnone; exact I.
      * rewrite H. exact I.
    + apply during_refine in Hin.
      destruct Hin as [H | [H | H]]; rewrite H; exact I.
    + destruct Hin as [<- | []]. reflexivity.
    + discriminate Hev.
Qed.

(** In [analyzing] and [generating] there is no image, the Try Again
    button included. *)
Lemma reachable_image_free_while_generating s :
  reachable s ->
  status s = analyzing \/ status s = generating -> generatedImage s = None.
Proof.
  intros [s0 Hs | ev s0 s' Hs Hin] Hst.
  - apply settled_not_busy in Hs. unfold isGenerating in Hs.
    destruct Hst as [Hst | Hst]; rewrite Hst in Hs; discriminate Hs.
  - destruct ev as [h data config | h instruction | |]; cbn [run] in Hin.
    + apply during_generate in Hin.
      destruct Hin as [[_ Hnone] | H]; [exact Hnone|].
      destruct Hst as [Hst | Hst]; congruence.
    + apply during_refine in Hin.
      destruct Hin as [H | [H | H]]; destruct Hst as [Hst | Hst]; congruence.
    + destruct Hin as [<- | []]. reflexivity.
    + destruct (error_banner s0); [|destruct Hin].
      destruct Hin as [<- | []].
      destruct Hst as [Hst | Hst]; discriminate Hst.
Qed.

Lemma refinement_lost_reachable : reachable Scenario.refinement_lost.
Proof.
  apply reachable_settled. unfold Scenario.refinement_lost, Scenario.generated.
  do 2 apply settled_after. apply settled_initial.
Qed.

Lemma refinement_lost_by_handlers :
  reachable_by_handlers Scenario.refinement_lost.
Proof.
  apply handlers_settled. unfold Scenario.refinement_lost, Scenario.generated.
  do 2 (apply handlers_after; [reflexivity|]). apply handlers_initial.
Qed.

Lemma retried_reachable : reachable Scenario.retried.
Proof.
  apply reachable_settled. unfold Scenario.retried, Scenario.refinement_lost,
    Scenario.generated.
  do 3 apply settled_after. apply settled_initial.
Qed.

(** C1, as worded, fails: on a run of the three handlers alone, after
    a generation that succeeded and a refinement that failed, the
    session is in [error] and still holds the image. *)
Lemma image_kept_in_error_status :
  ~ (forall s, reachable_by_handlers s ->
               image_only_in_completed_or_refining s).
Proof.
  intros H.
  assert (generatedImage Scenario.refinement_lost <> None) as Himage
    by (vm_compute; discriminate).
  destruct (H Scenario.refinement_lost refinement_lost_by_handlers Himage)
    as [E | E]; vm_compute in E; discriminate.
Qed.

(** C1, amended. In every session reached through [handleGenerate],
    [handleRefine] and [handleReset], [generatedImage] is non-null
    only in status [completed], [refining] or [error], and is null in
    [idle], [analyzing] and [generating]. With the Try Again button of
    the error banner in play as well (it sets the status to [idle] and
    nothing else), the image a failed refinement kept can also be
    there in [idle]: in every session the component can reach, a
    non-null image means status [completed], [refining], [error] or
    [idle], and in [analyzing] and [generating] the image is null. *)
Theorem generatedImage_only_after_a_result s :
  (reachable_by_handlers s ->
   (generatedImage s <> None ->
    status s = completed \/ status s = refining \/ status s = error) /\
   (status s = idle \/ status s = analyzing \/ status s = generating ->
    generatedImage s = None)) /\
  (reachable s ->
   (generatedImage s <> None ->
    status s = completed \/ status s = refining \/ status s = error
    \/ status s = idle) /\
   (status s = analyzing \/ status s = generating ->
    generatedImage s = None)).
Proof.
  split.
  - intros Hs. apply reachable_image_free_until_result in Hs.
    unfold image_free_until_result in Hs.
    destruct (status s); split; intros H; try tauto;
      destruct H as [H | [H | H]]; discriminate.
  - intros Hs.
    pose proof (reachable_image_free_while_generating s Hs) as Hfree.
    split; [|exact Hfree].
    intros Himage. destruct (status s); try tauto;
      exfalso; apply Himage, Hfree; tauto.
Qed.

Lemma generatedImage_only_after_a_result_witness :
  ((generatedImage Scenario.refinement_lost <> None ->
    status Scenario.refinement_lost = completed
    \/ status Scenario.refinement_lost = refining
    \/ status Scenario.refinement_lost = error) /\
   (status Scenario.refinement_lost = idle
    \/ status Scenario.refinement_lost = analyzing
    \/ status Scenario.refinement_lost = generating ->
    generatedImage Scenario.refinement_lost = None)) /\
  ((generatedImage Scenario.retried <> None ->
    status Scenario.retried = completed \/ status Scenario.retried = refining
    \/ status Scenario.retried = error \/ status Scenario.retried = idle) /\
   (status Scenario.retried = analyzing \/ status Scenario.retried = generating ->
    generatedImage Scenario.retried = None)).
Proof.
  split.
  - apply (proj1 (generatedImage_only_after_a_result Scenario.refinement_lost)).
    exact refinement_lost_by_handlers.
  - apply (proj2 (generatedImage_only_after_a_result Scenario.retried)).
    exact retried_reachable.
Defined.

(** After the failed refinement the banner is up, and its button
    leaves an [idle] session that still holds the image. *)
Example retried_is_idle_with_image :
  error_banner Scenario.refinement_lost = true /\
  status Scenario.retried = idle /\
  generatedImage Scenario.retried
    = Some "data:image/png;base64,iVBORw0KGgo=".
Proof. repeat split. Qed.

(** The Try Again button of the error banner is not one of the three
    handlers: it sets the status alone, so after a failed refinement
    it leaves an [idle] session that still holds the image. *)
Example tryAgain_keeps_image :
  let s := List.last (tryAgain Scenario.refinement_lost) Scenario.refinement_lost in
  status s = idle /\
  generatedImage s = Some "data:image/png;base64,iVBORw0KGgo=".
Proof. split; reflexivity. Qed.

(** C2. In a session in status [completed] that holds an image, a
    refinement attempt that fails leaves the status at [error] and
    the image exactly as it was. *)
Theorem failed_refinement_keeps_image h instruction s image e :
  status s = completed ->
  generatedImage s = Some image ->
  refine_attempt h instruction s = Some (inl e) ->
  status (after (Refine h instruction) s) = error /\
  generatedImage (after (Refine h instruction) s) = Some image.
Proof.
  intros _ Himage Hfail.
  destruct (after_failed_refine _ _ _ _ Hfail) as [Hst Him].
  split; [exact Hst | congruence].
Qed.

Lemma failed_refinement_keeps_image_witness :
  status Scenario.refinement_lost = error /\
  generatedImage Scenario.refinement_lost
    = Some "data:image/png;base64,iVBORw0KGgo=".
Proof.
  apply (failed_refinement_keeps_image Scenario.silent_host
           "Make the background darker" Scenario.generated
           "data:image/png;base64,iVBORw0KGgo="
           (Error "No image data found in refinement response."));
    reflexivity.
Defined.

(** C3, as worded, fails: only the first candidate is looked at, so a
    reply whose inline image sits in the second candidate makes
    [generateCoverImage] throw its no-image error all the same. *)
Lemma image_in_second_candidate_is_missed :
  ~ (forall h visualPrompt config response,
        truthy_opt (API_KEY h) = true ->
        generateContent h (image_request visualPrompt config)
          = inr response ->
        (outcome (generateCoverImage h visualPrompt config)
           = inl (Error "No image data found in response.") <->
         Spec.no_image_in_any_candidate response = true)).
Proof.
  intros H.
  specialize (H Scenario.second_candidate_host "A glassy nebula."
                Scenario.config Scenario.second_candidate_response
                eq_refl eq_refl).
  destruct H as [H _]. specialize (H eq_refl). discriminate H.
Qed.

(** C3, amended. On a reply that has no [candidates], or whose first
    candidate is there with content, [generateCoverImage] throws its
    no-image error if and only if no inline image part is present in
    the first candidate (later candidates are not looked at); and when
    the image call of a generation fails, the session ends in [error]
    with [generatedImage] null. *)
Theorem generateCoverImage_no_image_data h visualPrompt config :
  (forall response,
      truthy_opt (API_KEY h) = true ->
      generateContent h (image_request visualPrompt config) = inr response ->
      Spec.first_candidate_readable response = true ->
      (outcome (generateCoverImage h visualPrompt config)
         = inl (Error "No image data found in response.") <->
       Spec.no_image_in_first_candidate response = true)) /\
  (forall data s e,
      outcome (generateVisualDescription h data (style config))
        = inr visualPrompt ->
      outcome (generateCoverImage h visualPrompt config) = inl e ->
      status (after (Generate h data config) s) = error /\
      generatedImage (after (Generate h data config) s) = None).
Proof.
  split.
  - intros response Hkey Hresp Hreadable.
    rewrite ServiceProofs.outcome_generateCoverImage, Hkey, Hresp.
    now apply ServiceProofs.extract_image_throws.
  - intros data s e. apply after_failed_generate.
Qed.

Lemma generateCoverImage_no_image_data_witness :
  (outcome (generateCoverImage Scenario.second_candidate_host
              "A glassy nebula." Scenario.config)
     = inl (Error "No image data found in response.") <->
   Spec.no_image_in_first_candidate Scenario.second_candidate_response = true)
  /\
  (status (after (Generate Scenario.silent_host Scenario.article
                    Scenario.config) initial) = error /\
   generatedImage (after (Generate Scenario.silent_host Scenario.article
                            Scenario.config) initial) = None).
Proof.
  split.
  - apply (proj1 (generateCoverImage_no_image_data
                    Scenario.second_candidate_host "A glassy nebula."
                    Scenario.config)
             Scenario.second_candidate_response);
      reflexivity.
  - apply (proj2 (generateCoverImage_no_image_data Scenario.silent_host
                    "A scientific abstract representation." Scenario.config)
             Scenario.article initial
             (Error "No image data found in response."));
      reflexivity.
Defined.

End AppProofs.

(* ===================================================================== *)
(** * The cover editor *)
(* ===================================================================== *)

Module DisplayProofs.

Import JS.
Import ResultDisplay.
Import JSFacts.

Local Open Scope Z_scope.

(** ** Metadata sync *)

Lemma or_else_truthy (v prev : string) :
  v <> "" -> or_else (Some v) prev = v.
Proof. intros Hv. simpl. now destruct v. Qed.

Lemma or_else_absent (o : option string) (prev : string) :
  o = None \/ o = Some "" -> or_else o prev = prev.
Proof. now intros [-> | ->]. Qed.

Lemma metadata_syncMetadata (toUpperCase : string -> string)
    (R : Types.ArticleData) (s : State) :
  metadata (syncMetadata toUpperCase (Some R) s)
    = merge_article toUpperCase R (metadata s).
Proof. reflexivity. Qed.

(** ** Font sizing *)

Lemma last_font_size : Z.of_nat (length FONT_SIZES) - 1 = 14.
Proof. reflexivity. Qed.

Lemma max_min_clamp (v : Z) : Z.max 0 (Z.min 14 v) = Spec.clamp v 0 14.
Proof.
  unfold Spec.clamp.
  destruct (Z.ltb_spec v 0); [lia|].
  destruct (Z.ltb_spec 14 v); lia.
Qed.

Lemma clamp_in_range (v : Z) : 0 <= Spec.clamp v 0 14 <= 14.
Proof.
  unfold Spec.clamp.
  destruct (Z.ltb_spec v 0); [lia|].
  destruct (Z.ltb_spec 14 v); lia.
Qed.

Lemma responsive_index_clamp (offsets : gmap string Z) (b : Z) (name : string) :
  responsive_index offsets b name
    = Spec.clamp (b + default 0 (offsets !! name)) 0 14.
Proof.
  unfold responsive_index. rewrite last_font_size. apply max_min_clamp.
Qed.

Lemma FONT_SIZES_at_in_range (i : Z) :
  0 <= i <= 14 ->
  FONT_SIZES_at i = FONT_SIZES !! Z.to_nat i /\ is_Some (FONT_SIZES_at i).
Proof.
  intros Hi. unfold FONT_SIZES_at.
  destruct (Z.ltb_spec i 0); [lia|].
  split; [reflexivity|].
  apply lookup_lt_is_Some. change (length FONT_SIZES) with 15%nat. lia.
Qed.

Lemma truthy_field_name (f : Field) : truthy (field_name f) = true.
Proof. now destruct f. Qed.

Lemma field_name_inj (A B : Field) : field_name A = field_name B -> A = B.
Proof. destruct A, B; simpl; intros H; first [reflexivity | discriminate H]. Qed.

Lemma fontOffsets_handleFontSizeChange (delta : Z) (s : State) (A : Field) :
  activeField s = Some (field_name A) ->
  fontOffsets (handleFontSizeChange delta s)
    = <[ field_name A := default 0 (fontOffsets s !! field_name A) + delta ]>
        (fontOffsets s).
Proof.
  intros HA. unfold handleFontSizeChange. rewrite HA, truthy_field_name.
  reflexivity.
Qed.

(** ** Export *)

Lemma export_without_canvas (w : Exporter) (s : State) :
  containerRef s = None -> after_export w s = s.
Proof. intros H. unfold after_export, handleDownloadPdf. now rewrite H. Qed.

(** C5. Merging an incoming article record [R] into the cover
    metadata [M]: each of [journalName], [title], [authors] and [doi]
    takes [R]'s value when that value is non-empty ([journalName]
    upper-cased by the engine's [toUpperCase], whatever letters it
    maps) and keeps [M]'s when it is empty or absent; the five other
    fields are never changed. *)
Theorem merge_overwrites_only_non_empty_fields
    (toUpperCase : string -> string) (s : State) (R : Types.ArticleData) :
  upper_casing toUpperCase ->
  let M := metadata s in
  let M' := metadata (syncMetadata toUpperCase (Some R) s) in
  ((forall v, Types.journalName R = Some v -> v <> "" ->
              journalName M' = toUpperCase v) /\
   (Types.journalName R = None \/ Types.journalName R = Some "" ->
    journalName M' = journalName M)) /\
  ((Types.title R <> "" -> title M' = Types.title R) /\
   (Types.title R = "" -> title M' = title M)) /\
  ((forall v, Types.authors R = Some v -> v <> "" -> authors M' = v) /\
   (Types.authors R = None \/ Types.authors R = Some "" ->
    authors M' = authors M)) /\
  ((forall v, Types.doi R = Some v -> v <> "" -> doi M' = v) /\
   (Types.doi R = None \/ Types.doi R = Some "" -> doi M' = doi M)) /\
  date M' = date M /\ volumeInfo M' = volumeInfo M /\
  website M' = website M /\ tag M' = tag M /\ footer M' = footer M.
Proof.
  intros Hupper. cbv zeta. rewrite metadata_syncMetadata.
  unfold merge_article.
  cbn [journalName date volumeInfo website tag title authors footer doi].
  split; [split|].
  - intros v -> Hv. simpl. rewrite Hupper.
    apply truthy_true in Hv. now rewrite Hv.
  - intros [-> | ->]; simpl; [reflexivity|].
    now rewrite Hupper.
  - repeat split.
    + intros Hv. simpl. now destruct (Types.title R).
    + now intros ->.
    + intros v -> Hv. destruct v; [congruence | reflexivity].
    + now intros [-> | ->].
    + intros v -> Hv. destruct v; [congruence | reflexivity].
    + now intros [-> | ->].
Qed.

Lemma merge_overwrites_only_non_empty_fields_witness :
  journalName
    (metadata (syncMetadata toUpperCase_ascii (Some Scenario.article)
                 (mounted Scenario.canvas)))
    = "ADVANCED SCIENCE".
Proof.
  apply (proj1 (proj1 (merge_overwrites_only_non_empty_fields
                         toUpperCase_ascii (mounted Scenario.canvas)
                         Scenario.article truthy_toUpperCase))
           "Advanced Science");
    [reflexivity | discriminate].
Defined.

(** C6. For every base index [b] and every field, the effective
    font-size index is [clamp(b + o, 0, 14)], where [o] is the offset
    stored for the field (none stored counts as 0), and it selects an
    entry of the scale; changing the offset of the field in focus
    never changes the index computed for another field. *)
Theorem font_index_clamped_and_independent :
  (forall (offsets : gmap string Z) (b : Z) (f : Field),
      (forall o, offsets !! field_name f = Some o ->
                 responsive_index offsets b (field_name f)
                   = Spec.clamp (b + o) 0 14) /\
      (offsets !! field_name f = None ->
       responsive_index offsets b (field_name f) = Spec.clamp b 0 14) /\
      getResponsiveSize offsets b (Some (field_name f))
        = FONT_SIZES !! Z.to_nat (responsive_index offsets b (field_name f)) /\
      is_Some (getResponsiveSize offsets b (Some (field_name f)))) /\
  (forall (s : State) (delta b : Z) (A B : Field),
      activeField s = Some (field_name A) ->
      A <> B ->
      responsive_index (fontOffsets (handleFontSizeChange delta s)) b
        (field_name B)
        = responsive_index (fontOffsets s) b (field_name B) /\
      getResponsiveSize (fontOffsets (handleFontSizeChange delta s)) b
        (Some (field_name B))
        = getResponsiveSize (fontOffsets s) b (Some (field_name B))).
Proof.
  split.
  - intros offsets b f. repeat split.
    + intros o Ho. rewrite responsive_index_clamp, Ho. reflexivity.
    + intros Ho. rewrite responsive_index_clamp, Ho. simpl.
      now rewrite Z.add_0_r.
    + simpl. rewrite truthy_field_name.
      apply FONT_SIZES_at_in_range.
      rewrite responsive_index_clamp. apply clamp_in_range.
    + simpl. rewrite truthy_field_name.
      apply FONT_SIZES_at_in_range.
      rewrite responsive_index_clamp. apply clamp_in_range.
  - intros s delta b A B HA HAB.
    assert (responsive_index (fontOffsets (handleFontSizeChange delta s)) b
              (field_name B)
            = responsive_index (fontOffsets s) b (field_name B)) as Hsame.
    { rewrite (fontOffsets_handleFontSizeChange delta s A HA).
      unfold responsive_index. rewrite lookup_insert_ne; [reflexivity|].
      intros Heq. apply HAB. now apply field_name_inj. }
    split; [exact Hsame|].
    simpl. rewrite truthy_field_name. now rewrite Hsame.
Qed.

(** The title gets focus and is enlarged twice; the author list
    keeps its size. *)
Lemma font_index_clamped_and_independent_witness :
  let s := batch [ setActiveField (Some (field_name FTitle)) ]
             (mounted Scenario.canvas) in
  responsive_index (fontOffsets (handleFontSizeChange 2 s))
    (base_index (metadata s) FAuthors) (field_name FAuthors)
    = responsive_index (fontOffsets s)
        (base_index (metadata s) FAuthors) (field_name FAuthors) /\
  getResponsiveSize (fontOffsets (handleFontSizeChange 2 s))
    (base_index (metadata s) FAuthors) (Some (field_name FAuthors))
    = getResponsiveSize (fontOffsets s)
        (base_index (metadata s) FAuthors) (Some (field_name FAuthors)).
Proof.
  apply (proj2 font_index_clamped_and_independent
           (batch [ setActiveField (Some (field_name FTitle)) ]
              (mounted Scenario.canvas))
           2 _ FTitle FAuthors);
    [reflexivity | discriminate].
Defined.

(** C8. When the export runs (the canvas is mounted), then whether
    capture and encoding succeed or fail, the interaction mode after
    it equals the mode before it, and the exporting flag is cleared. *)
Theorem export_restores_mode (w : Exporter) (s : State) (rect : DOMRect) :
  containerRef s = Some rect ->
  mode (after_export w s) = mode s /\
  isExporting (after_export w s) = false.
Proof.
  intros Hrect. unfold after_export, handleDownloadPdf. rewrite Hrect.
  split; reflexivity.
Qed.

Lemma export_restores_mode_witness :
  mode (after_export Scenario.failing_exporter Scenario.arranging)
    = layout_mode /\
  isExporting (after_export Scenario.failing_exporter Scenario.arranging)
    = false.
Proof.
  apply (export_restores_mode Scenario.failing_exporter Scenario.arranging
           Scenario.canvas).
  reflexivity.
Defined.

(** While the export is in flight the editor is forced into [edit]
    mode with no field in focus; a failure is reported by an alert, a
    success saves the A4 document under the sanitised journal name. *)
Example export_in_flight :
  fst (handleDownloadPdf Scenario.failing_exporter Scenario.arranging)
    = [ batch [ setIsExporting true; setMode edit; setActiveField None ]
          Scenario.arranging;
        Scenario.arranging ] /\
  snd (handleDownloadPdf Scenario.failing_exporter Scenario.arranging)
    = [ ConsoleError "Export failed";
        Alert "Could not generate PDF. Please try again." ] /\
  snd (handleDownloadPdf Scenario.working_exporter Scenario.arranging)
    = [ Saved "ADVANCED_SCIENCE_Cover.pdf"
          "data:image/jpeg;base64,/9j/4AAQ" 210 297 ].
Proof. repeat split. Qed.

(** C4 fails on the code. The listener on [window] adds the delta to
    the captured origin and stores it unclamped: pressing on the
    header group and moving 500 pixels right on a canvas 500 pixels
    wide puts its [x] at 105. *)
Theorem window_drag_leaves_clamp_range :
  let s := pointer_run Scenario.drag_right Scenario.arranging in
  x (header (layout s)) = 105%float /\
  y (header (layout s)) = 5%float /\
  position_in_range (header (layout s)) = false.
Proof. repeat split. Qed.

(** The handler on the canvas element clamps the same gesture. *)
Example canvas_drag_is_clamped :
  let s := pointer_run Scenario.drag_right_on_canvas Scenario.arranging in
  x (header (layout s)) = 100%float /\
  y (header (layout s)) = 5%float /\
  position_in_range (header (layout s)) = true.
Proof. repeat split. Qed.

(** A move over the canvas reaches both handlers, the element's
    first: the unclamped value of the window listener is the one
    that stays. *)
Example both_handlers_leave_clamp_range :
  let s := pointer_run
             [ MouseDown KHeader 100 100;
               MouseMove 600 100; WindowMouseMove 600 100; MouseUp ]
             Scenario.arranging in
  x (header (layout s)) = 105%float /\
  position_in_range (header (layout s)) = false.
Proof. repeat split. Qed.

End DisplayProofs.

(* ===================================================================== *)
(** * More about the service *)
(* ===================================================================== *)

Module ServiceExtras.

Import JS.
Import Types.
Import GeminiService.
Import JSFacts.
Import ServiceProofs.

#[local] Arguments String.append !_ _ / : simpl nomatch.

Lemma prefix_split (p : string) :
  forall s, String.prefix p s = true -> exists x, s = p +:+ x.
Proof.
  induction p as [|a p IH]; intros s H.
  - now exists s.
  - destruct s as [|b s]; [discriminate|]. simpl in H.
    destruct (ascii_dec a b) as [->|]; [|discriminate].
    destruct (IH _ H) as [x ->]. now exists x.
Qed.

Lemma calls_getAiClient (h : Host) :
  truthy_opt (API_KEY h) = true -> calls (getAiClient h) = [].
Proof. intros H. unfold getAiClient. now rewrite H. Qed.

(** With a key configured, an image call logs its credential check
    and then its one request. *)
Lemma calls_generateCoverImage h visualPrompt config :
  truthy_opt (API_KEY h) = true ->
  calls (generateCoverImage h visualPrompt config)
    = (calls (ensure_selected_key h config)
       ++ [GenerateContent (image_request visualPrompt config)])%list.
Proof.
  intros Hkey. unfold generateCoverImage.
  rewrite calls_bind, outcome_getAiClient, Hkey, calls_getAiClient by assumption.
  rewrite calls_bind, outcome_ensure_selected_key. cbn [app]. f_equal.
  rewrite calls_bind, outcome_await, calls_await.
  destruct (generateContent h _); [reflexivity|].
  now rewrite calls_extract_image.
Qed.

Lemma calls_refineCoverImage h image instruction config :
  truthy_opt (API_KEY h) = true ->
  calls (refineCoverImage h image instruction config)
    = (calls (ensure_selected_key h config)
       ++ [GenerateContent
             (refine_request (strip_data_url image) instruction config)])%list.
Proof.
  intros Hkey. unfold refineCoverImage.
  rewrite calls_bind, outcome_getAiClient, Hkey, calls_getAiClient by assumption.
  cbv zeta.
  rewrite calls_bind, outcome_ensure_selected_key. cbn [app]. f_equal.
  rewrite calls_bind, outcome_await, calls_await.
  destruct (generateContent h _); [reflexivity|].
  now rewrite calls_extract_image.
Qed.

(** The credential check, call by call. *)
Lemma calls_ensure_selected_key h config :
  calls (ensure_selected_key h config) =
  match model config, aistudio h with
  | PRO_IMAGE, Some studio =>
      HasSelectedApiKey ::
      (if hasSelectedApiKey studio then [] else [OpenSelectKey])
  | _, _ => []
  end.
Proof.
  unfold ensure_selected_key.
  destruct (model config); simpl; [reflexivity|].
  destruct (aistudio h) as [[[|]]|]; reflexivity.
Qed.

(** X1. Without an API key (none, or the empty string) none of the
    three pipeline calls reaches the backend or the credential
    selector: each logs the console warning, throws the missing-key
    error and does nothing else. *)
Theorem no_backend_call_without_api_key (h : Host) :
  truthy_opt (API_KEY h) = false ->
  let warned :=
    [ConsoleWarn "API_KEY is missing. Please configure it in your environment."] in
  let missing :=
    Error "API Key is missing. Please configure process.env.API_KEY." in
  (forall article style,
      generateVisualDescription h article style = (warned, inl missing)) /\
  (forall visualPrompt config,
      generateCoverImage h visualPrompt config = (warned, inl missing)) /\
  (forall image instruction config,
      refineCoverImage h image instruction config = (warned, inl missing)).
Proof.
  intros Hkey. cbv zeta.
  unfold generateVisualDescription, generateCoverImage, refineCoverImage,
    getAiClient.
  rewrite Hkey. repeat split.
Qed.

Lemma no_backend_call_without_api_key_witness :
  generateCoverImage Scenario.keyless_host "A glassy nebula." Scenario.pro_config
  = ([ConsoleWarn "API_KEY is missing. Please configure it in your environment."],
     inl (Error "API Key is missing. Please configure process.env.API_KEY.")).
Proof.
  apply (proj1 (proj2 (no_backend_call_without_api_key Scenario.keyless_host
                         eq_refl))).
Defined.

(** X2. With a key configured, an image call (generate or refine)
    sends exactly one request to the backend, as its last outside
    call; the host's key selector is opened exactly when the model is
    the high-quality one, the host has the capability and it reports
    that no key is selected; for the fast model the capability is not
    even asked. *)
Theorem key_selector_only_for_pro_model (h : Host) (config : GenerationConfig) :
  truthy_opt (API_KEY h) = true ->
  let check := calls (ensure_selected_key h config) in
  (forall visualPrompt,
      calls (generateCoverImage h visualPrompt config)
        = (check ++ [GenerateContent (image_request visualPrompt config)])%list) /\
  (forall image instruction,
      calls (refineCoverImage h image instruction config)
        = (check ++ [GenerateContent
                       (refine_request (strip_data_url image) instruction
                          config)])%list) /\
  (forall req, ~ In (GenerateContent req) check) /\
  (In OpenSelectKey check <->
   model config = PRO_IMAGE /\
   exists studio, aistudio h = Some studio /\ hasSelectedApiKey studio = false) /\
  (model config = FLASH_IMAGE -> check = []).
Proof.
  intros Hkey. cbv zeta. split; [|split; [|split; [|split]]].
  - intros. now apply calls_generateCoverImage.
  - intros. now apply calls_refineCoverImage.
  - intros req. rewrite calls_ensure_selected_key.
    destruct (model config); [intros []|].
    destruct (aistudio h) as [[[|]]|]; simpl; intuition discriminate.
  - rewrite calls_ensure_selected_key.
    destruct (model config).
    + split; [intros [] | intros [H _]; discriminate H].
    + destruct (aistudio h) as [[[|]]|]; simpl.
      * split; [intuition discriminate|].
        intros [_ (studio & [= <-] & H)]. discriminate H.
      * split; [|tauto]. intros _. split; [reflexivity|]. eauto.
      * split; [intros [] | intros [_ (studio & H & _)]; discriminate H].
  - intros Hflash. rewrite calls_ensure_selected_key, Hflash. reflexivity.
Qed.

Lemma key_selector_only_for_pro_model_witness :
  calls (generateCoverImage Scenario.studio_host "A glassy nebula."
           Scenario.pro_config)
  = [ HasSelectedApiKey; OpenSelectKey;
      GenerateContent (image_request "A glassy nebula." Scenario.pro_config) ].
Proof.
  apply (proj1 (key_selector_only_for_pro_model Scenario.studio_host
                  Scenario.pro_config eq_refl)).
Defined.

Lemma matches_data_url_prefix (p : string) :
  Spec.matches data_url_prefix p -> In p Spec.image_data_url_prefixes.
Proof.
  simpl.
  intros (p1 & p2 & -> & -> & (q1 & q2 & -> & H & ->)).
  destruct H as [-> | [-> | ->]]; simpl; tauto.
Qed.

(** X3. [refineCoverImage]'s prefix stripping removes one leading
    [data:image/png;base64,], [data:image/jpeg;base64,] or
    [data:image/webp;base64,] and nothing else: the result is the
    input without that prefix, and an input that starts with none of
    the three is passed on unchanged. *)
Theorem strip_data_url_removes_one_prefix (image : string) :
  (exists p, In p Spec.image_data_url_prefixes /\
             image = p +:+ strip_data_url image) \/
  (strip_data_url image = image /\
   forall p, In p Spec.image_data_url_prefixes ->
             String.prefix p image = false).
Proof.
  unfold strip_data_url, replace_anchored.
  destruct (re_match data_url_prefix image Some) as [rest|] eqn:E.
  - left. destruct (re_match_sound _ _ _ _ E) as (p & rest' & -> & Hp & [= <-]).
    exists p. split; [now apply matches_data_url_prefix | reflexivity].
  - right. split; [reflexivity|].
    intros p Hp. destruct (String.prefix p image) eqn:Hpre; [|reflexivity].
    apply prefix_split in Hpre. destruct Hpre as [x ->].
    destruct Hp as [<- | [<- | [<- | []]]]; discriminate E.
Qed.

(** X4. The DOI normalisation removes one leading resolver prefix, in
    any of its six spellings, and nothing else: the result is the
    input without that prefix, and an input that starts with none of
    them is returned unchanged. *)
Theorem cleanDoi_removes_one_prefix (doi : string) :
  (exists p, In p Spec.resolver_prefixes /\ doi = p +:+ cleanDoi doi) \/
  (cleanDoi doi = doi /\ Spec.has_resolver_prefix doi = false).
Proof.
  unfold cleanDoi, replace_anchored.
  destruct (re_match doi_resolver_prefix doi Some) as [rest|] eqn:E.
  - left. destruct (re_match_sound _ _ _ _ E) as (p & rest' & -> & Hp & [= <-]).
    exists p. split; [now apply matches_doi_resolver_prefix | reflexivity].
  - right. split; [reflexivity|].
    destruct (Spec.has_resolver_prefix doi) eqn:Hpre; [|reflexivity].
    apply existsb_exists in Hpre. destruct Hpre as (p & Hp & Hpre).
    apply prefix_split in Hpre. destruct Hpre as [x ->].
    destruct Hp as [<- | [<- | [<- | [<- | [<- | [<- | []]]]]]];
      discriminate E.
Qed.

Lemma or_else_nonempty (o : option string) (fallback : string) :
  fallback <> "" -> or_else o fallback <> "".
Proof.
  intros Hf. destruct o as [[|c v]|]; simpl; [exact Hf | discriminate | exact Hf].
Qed.

(** X5. Whatever goes wrong in the DOI lookup (the request is
    rejected, the service answers with a non-success status, its body
    cannot be read or has no [message]), [fetchDoiMetadata] fails with
    the one error [Could not fetch DOI data. Please enter text
    manually.]; and these are its only failures. *)
Theorem fetchDoiMetadata_fails_with_one_message
    (fetch : string -> exn + FetchResponse) (doi : string) :
  (forall e, fetchDoiMetadata fetch doi = inl e ->
             e = Error "Could not fetch DOI data. Please enter text manually.") /\
  ((exists e, fetchDoiMetadata fetch doi = inl e) <->
   (exists e, fetch (crossref_url doi) = inl e) \/
   (exists response,
       fetch (crossref_url doi) = inr response /\
       (ok response = false \/ (exists e, json response = inl e) \/
        json response = inr None))).
Proof.
  unfold fetchDoiMetadata, crossref_url. cbv zeta.
  destruct (fetch _) as [e0|response] eqn:Hfetch.
  { split; [now intros e [= <-]|]. split; eauto. }
  destruct (ok response) eqn:Hok.
  2:{ split; [now intros e [= <-]|]. split; [|eauto].
      intros _. right. exists response. auto. }
  destruct (json response) as [e1|[item|]] eqn:Hjson.
  - split; [now intros e [= <-]|]. split; [|eauto].
    intros _. right. exists response. eauto.
  - split; [discriminate|]. split; [intros [e H]; discriminate H|].
    intros [[e H] | (r & [= <-] & [H | [[e H] | H]])]; congruence.
  - split; [now intros e [= <-]|]. split; [|eauto].
    intros _. right. exists response. eauto.
Qed.

(** X6. When [fetchDoiMetadata] returns a record, the service was
    asked for the normalised DOI and answered with success; the
    record's title and content are never empty (they fall back to
    [Untitled] and to the manual-entry placeholder), its [doi] is the
    normalised DOI, and its authors are the [given family] names
    joined by a comma and a space. *)
Theorem fetchDoiMetadata_record
    (fetch : string -> exn + FetchResponse) (doi : string)
    (record : ArticleData) :
  fetchDoiMetadata fetch doi = inr record ->
  title record <> "" /\ Types.content record <> "" /\
  Types.doi record = Some (cleanDoi doi) /\
  exists response item,
    fetch ("https://api.crossref.org/works/" +:+ cleanDoi doi) = inr response /\
    ok response = true /\ json response = inr (Some item) /\
    authors record
      = Some (join ", " (map author_name (default [] (item_author item)))) /\
    journalName record
      = Some (or_else (first_of (item_container_title item)) "").
Proof.
  unfold fetchDoiMetadata. cbv zeta.
  destruct (fetch _) as [e0|response] eqn:Hfetch; [discriminate|].
  destruct (ok response) eqn:Hok; [|discriminate].
  destruct (json response) as [e1|[item|]] eqn:Hjson; try discriminate.
  intros [= <-]. simpl.
  split; [now apply or_else_nonempty|].
  split; [now apply or_else_nonempty|].
  split; [reflexivity|].
  exists response, item. repeat split; try assumption.
  now destruct (item_author item).
Qed.

Lemma fetchDoiMetadata_record_witness :
  title Scenario.fetched_record <> "" /\
  Types.content Scenario.fetched_record <> "" /\
  Types.doi Scenario.fetched_record
    = Some (cleanDoi "https://doi.org/10.1002/advs.202500123") /\
  exists response item,
    Scenario.crossref
      ("https://api.crossref.org/works/"
       +:+ cleanDoi "https://doi.org/10.1002/advs.202500123") = inr response /\
    ok response = true /\ json response = inr (Some item) /\
    authors Scenario.fetched_record
      = Some (join ", " (map author_name (default [] (item_author item)))) /\
    journalName Scenario.fetched_record
      = Some (or_else (first_of (item_container_title item)) "").
Proof.
  apply (fetchDoiMetadata_record Scenario.crossref
           "https://doi.org/10.1002/advs.202500123" Scenario.fetched_record).
  reflexivity.
Defined.

End ServiceExtras.

(* ===================================================================== *)
(** * More about the session *)
(* ===================================================================== *)

Module AppExtras.

Import JS.
Import Types.
Import GeminiService.
Import App.

#[local] Arguments String.append !_ _ / : simpl nomatch.

Lemma generateCoverImage_png h visualPrompt config url :
  outcome (generateCoverImage h visualPrompt config) = inr url ->
  is_png_data_url url.
Proof.
  rewrite ServiceProofs.outcome_generateCoverImage.
  destruct (truthy_opt (API_KEY h)); [|discriminate].
  destruct (generateContent h _) as [e|response]; [discriminate|].
  intros H. apply ServiceProofs.extract_image_returns in H.
  destruct H as (c & cs & ct & ps & blob & _ & _ & _ & _ & ->).
  now exists (template (data blob)).
Qed.

Lemma refineCoverImage_png h image instruction config url :
  outcome (refineCoverImage h image instruction config) = inr url ->
  is_png_data_url url.
Proof.
  rewrite ServiceProofs.outcome_refineCoverImage.
  destruct (truthy_opt (API_KEY h)); [|discriminate].
  destruct (generateContent h _) as [e|response]; [discriminate|].
  intros H. apply ServiceProofs.extract_image_returns in H.
  destruct H as (c & cs & ct & ps & blob & _ & _ & _ & _ & ->).
  now exists (template (data blob)).
Qed.

Lemma png_truthy (image : string) : is_png_data_url image -> truthy image = true.
Proof. now intros [payload ->]. Qed.

Lemma truthy_or_else (o : option string) (fallback : string) :
  truthy fallback = true -> truthy (or_else o fallback) = true.
Proof. intros Hf. now destruct o as [[|c v]|]. Qed.

(** What a coherent session that holds an image holds with it. *)
Lemma coherent_with_image s image :
  coherent s -> generatedImage s = Some image ->
  is_png_data_url image /\ generatedPrompt s <> None /\
  currentData s <> None /\ currentConfig s <> None.
Proof.
  unfold coherent. intros H Himage.
  destruct (status s).
  - exact (H _ Himage).
  - destruct H as [H _]. congruence.
  - destruct H as [H _]. congruence.
  - destruct H as ((image' & H1 & H2) & ? & ? & ? & ?).
    assert (image' = image) as -> by congruence. tauto.
  - destruct H as ((image' & H1 & H2) & ? & ? & ? & ?).
    assert (image' = image) as -> by congruence. tauto.
  - destruct H as (_ & ? & ? & H). destruct (H _ Himage). tauto.
Qed.

Lemma during_generate_coherent h data config s s' :
  In s' (handleGenerate h data config s) -> coherent s'.
Proof.
  unfold handleGenerate.
  destruct (outcome (generateVisualDescription h data (style config)))
    as [e|visualPrompt].
  - intros [<- | [<- | []]]; unfold coherent; simpl.
    + repeat split; discriminate.
    + split; [now apply truthy_or_else|]. repeat split; discriminate.
  - destruct (outcome (generateCoverImage h visualPrompt config))
      as [e|url] eqn:Himage.
    + intros [<- | [<- | [<- | []]]]; unfold coherent; simpl.
      * repeat split; discriminate.
      * repeat split; discriminate.
      * split; [now apply truthy_or_else|]. repeat split; discriminate.
    + intros [<- | [<- | [<- | []]]]; unfold coherent; simpl.
      * repeat split; discriminate.
      * repeat split; discriminate.
      * split; [|repeat split; discriminate].
        exists url. split; [reflexivity|].
        now apply generateCoverImage_png in Himage.
Qed.

Lemma during_refine_coherent h instruction s s' :
  coherent s -> In s' (handleRefine h instruction s) -> coherent s'.
Proof.
  intros Hs. unfold handleRefine.
  destruct (generatedImage s) as [image|] eqn:Himage; [|intros []].
  destruct (currentConfig s) as [config|] eqn:Hconfig; [|intros []].
  destruct (truthy image); [|intros []].
  destruct (coherent_with_image s image Hs Himage) as (Hpng & Hprompt & Hdata & _).
  destruct (outcome (refineCoverImage h image instruction config))
    as [e|url] eqn:Hrefine;
    intros [<- | [<- | []]]; unfold coherent; simpl.
  - rewrite Himage, Hconfig. split; [eauto|]. repeat split; auto; discriminate.
  - rewrite Himage, Hconfig. split; [reflexivity|].
    split; [exact Hdata|]. split; [discriminate|].
    intros image' [= <-]. now split.
  - rewrite Himage, Hconfig. split; [eauto|]. repeat split; auto; discriminate.
  - rewrite Hconfig. split; [|repeat split; auto; discriminate].
    exists url. split; [reflexivity|].
    now apply refineCoverImage_png in Hrefine.
Qed.

Lemma last_in {A} (l : list A) (d : A) : l <> [] -> In (List.last l d) l.
Proof.
  induction l as [|a l IH]; [congruence|]. intros _.
  destruct l as [|b l]; [now left|].
  right. apply IH. discriminate.
Qed.

(** The banner's button turns a coherent [error] session into a
    coherent [idle] one. *)
Lemma during_tryAgain_coherent s s' :
  coherent s -> In s' (run TryAgain s) -> coherent s'.
Proof.
  intros Hs. cbn [run]. unfold error_banner, coherent in *.
  destruct (status s); try (intros []).
  destruct (truthy_opt (errorMessage s)); [|intros []].
  intros [<- | []]. simpl.
  destruct Hs as (_ & Hdata & Hconfig & Himage).
  intros image H. destruct (Himage _ H). tauto.
Qed.

Lemma settled_coherent s : settled s -> coherent s.
Proof.
  induction 1 as [|ev s Hs IH]; [unfold coherent; simpl; discriminate|].
  unfold after. destruct ev as [h data config | h instruction | |].
  - cbn [run]. apply (during_generate_coherent h data config s).
    apply last_in. unfold handleGenerate. discriminate.
  - cbn [run].
    destruct (handleRefine h instruction s) as [|s0 l] eqn:E; [exact IH|].
    apply (during_refine_coherent h instruction s _ IH).
    rewrite E. apply last_in. discriminate.
  - unfold coherent. simpl. discriminate.
  - destruct (run TryAgain s) as [|s0 l] eqn:E; [exact IH|].
    apply (during_tryAgain_coherent s _ IH).
    rewrite E. apply last_in. discriminate.
Qed.

(** Every session the machine can reach is coherent. *)
Lemma reachable_coherent s : reachable s -> coherent s.
Proof.
  intros [s0 Hs | ev s0 s' Hs Hin]; [now apply settled_coherent|].
  apply settled_coherent in Hs.
  destruct ev as [h data config | h instruction | |].
  - now apply during_generate_coherent in Hin.
  - now apply during_refine_coherent in Hin.
  - destruct Hin as [<- | []]. unfold coherent. simpl. discriminate.
  - now apply during_tryAgain_coherent in Hin.
Qed.

(** X7. [handleGenerate] starts from scratch: the sessions it renders,
    and the one it ends in, do not depend on the session it was
    started in (an earlier image, prompt, error or record leaves no
    trace). *)
Theorem handleGenerate_forgets_previous_session h data config s :
  handleGenerate h data config s = handleGenerate h data config initial /\
  after (Generate h data config) s = after (Generate h data config) initial.
Proof.
  assert (handleGenerate h data config s = handleGenerate h data config initial)
    as Hsame.
  { unfold handleGenerate.
    destruct (outcome (generateVisualDescription h data (style config)));
      [reflexivity|].
    now destruct (outcome (generateCoverImage h _ config)). }
  split; [exact Hsame|].
  unfold after. cbn [run]. rewrite Hsame.
  unfold handleGenerate.
  destruct (outcome (generateVisualDescription h data (style config)));
    [reflexivity|].
  now destruct (outcome (generateCoverImage h _ config)).
Qed.

(** X8. A generation ends in [completed] exactly when both stages
    succeed; the session then holds the submitted record and
    configuration, the prompt the description stage returned, the
    image the image stage returned for that very prompt, and no error
    message. *)
Theorem generation_completes_when_both_stages_succeed h data config s :
  status (after (Generate h data config) s) = completed <->
  exists visualPrompt imageUrl,
    outcome (generateVisualDescription h data (style config))
      = inr visualPrompt /\
    outcome (generateCoverImage h visualPrompt config) = inr imageUrl /\
    after (Generate h data config) s
      = {| status := completed; currentData := Some data;
           currentConfig := Some config; generatedImage := Some imageUrl;
           generatedPrompt := Some visualPrompt; errorMessage := None |}.
Proof.
  unfold after. cbn [run]. unfold handleGenerate.
  destruct (outcome (generateVisualDescription h data (style config)))
    as [e|visualPrompt].
  - simpl. split; [discriminate | intros (? & ? & H & _); discriminate H].
  - destruct (outcome (generateCoverImage h visualPrompt config))
      as [e|imageUrl] eqn:Himage; simpl.
    + split; [discriminate|].
      intros (p & u & [= <-] & H & _). congruence.
    + split; [|reflexivity]. intros _. now exists visualPrompt, imageUrl.
Qed.

(** X9. In every reachable session whose status is [completed] or
    [refining], an image is there and it is a PNG data URL, together
    with the prompt, the record and the configuration it came from. *)
Theorem completed_session_holds_png_image s :
  reachable s ->
  status s = completed \/ status s = refining ->
  (exists payload,
      generatedImage s = Some ("data:image/png;base64," +:+ payload)) /\
  generatedPrompt s <> None /\ currentData s <> None /\
  currentConfig s <> None.
Proof.
  intros Hs Hst. apply reachable_coherent in Hs. unfold coherent in Hs.
  destruct Hst as [Hst | Hst]; rewrite Hst in Hs;
    destruct Hs as ((image & Himage & (payload & ->)) & ? & ? & ? & ?);
    split; eauto.
Qed.

Lemma completed_session_holds_png_image_witness :
  (exists payload,
      generatedImage Scenario.generated
        = Some ("data:image/png;base64," +:+ payload)) /\
  generatedPrompt Scenario.generated <> None /\
  currentData Scenario.generated <> None /\
  currentConfig Scenario.generated <> None.
Proof.
  apply (completed_session_holds_png_image Scenario.generated).
  - apply reachable_settled. unfold Scenario.generated.
    apply settled_after, settled_initial.
  - left. reflexivity.
Defined.

(** X10. In every reachable session the error message goes with the
    status: in [error] there is a non-empty message (so the banner
    shows), and in [analyzing], [generating], [refining] and
    [completed] there is none. *)
Theorem error_message_goes_with_status s :
  reachable s ->
  (status s = error -> exists m, errorMessage s = Some m /\ m <> "") /\
  (status s = analyzing \/ status s = generating \/ status s = refining
   \/ status s = completed -> errorMessage s = None).
Proof.
  intros Hs. apply reachable_coherent in Hs. unfold coherent in Hs.
  destruct (status s); split; intros H;
    try discriminate H;
    try (destruct H as [H | [H | [H | H]]]; discriminate H);
    try tauto.
  destruct Hs as [Hm _].
  destruct (errorMessage s) as [m|]; [|discriminate Hm].
  exists m. split; [reflexivity|]. now apply JSFacts.truthy_true.
Qed.

Lemma error_message_goes_with_status_witness :
  (status Scenario.refinement_lost = error ->
   exists m, errorMessage Scenario.refinement_lost = Some m /\ m <> "") /\
  (status Scenario.refinement_lost = analyzing
   \/ status Scenario.refinement_lost = generating
   \/ status Scenario.refinement_lost = refining
   \/ status Scenario.refinement_lost = completed ->
   errorMessage Scenario.refinement_lost = None).
Proof.
  apply (error_message_goes_with_status Scenario.refinement_lost).
  apply AppProofs.refinement_lost_reachable.
Defined.

(** X11. In every reachable session [handleRefine] starts a
    refinement exactly when an image is present: with no image (before
    the first success, after a failed first generation, after a reset)
    it returns without rendering anything, and with one its guard
    never stops it. *)
Theorem refine_runs_when_image_present h instruction s :
  reachable s ->
  (handleRefine h instruction s = [] <-> generatedImage s = None).
Proof.
  intros Hs. apply reachable_coherent in Hs.
  unfold handleRefine.
  destruct (generatedImage s) as [image|] eqn:Himage; [|tauto].
  destruct (coherent_with_image s image Hs Himage) as (Hpng & _ & _ & Hconfig).
  destruct (currentConfig s) as [config|]; [|congruence].
  rewrite (png_truthy _ Hpng). split; discriminate.
Qed.

Lemma refine_runs_when_image_present_witness :
  handleRefine Scenario.silent_host "Make the background darker"
    (after Reset Scenario.generated) = []
  <-> generatedImage (after Reset Scenario.generated) = None.
Proof.
  apply (refine_runs_when_image_present Scenario.silent_host
           "Make the background darker" (after Reset Scenario.generated)).
  apply reachable_settled. unfold Scenario.generated.
  do 2 apply settled_after. apply settled_initial.
Defined.

(** X12. [handleRefine] never changes the article record, the
    configuration or the prompt: every session it renders, and the one
    it ends in, carries those of the session it started in, so each
    further refinement runs with the same configuration. *)
Theorem refine_keeps_record_config_prompt h instruction s :
  Forall (fun s' => currentData s' = currentData s /\
                    currentConfig s' = currentConfig s /\
                    generatedPrompt s' = generatedPrompt s)
    (after (Refine h instruction) s :: handleRefine h instruction s).
Proof.
  unfold after. cbn [run]. unfold handleRefine.
  destruct (generatedImage s) as [image|]; [|repeat constructor].
  destruct (currentConfig s) as [config|] eqn:Hconfig;
    [|repeat constructor; exact Hconfig].
  destruct (truthy image); [|repeat constructor; exact Hconfig].
  destruct (outcome (refineCoverImage h image instruction config));
    repeat constructor; exact Hconfig.
Qed.

(** X13. The busy flag brackets every handler: started in a settled
    session, each session a handler renders before its last one has
    [isGenerating] set, and the session it ends in has it cleared. *)
Theorem handlers_end_not_busy ev s :
  settled s ->
  Forall (fun s' => isGenerating s' = true) (removelast (run ev s)) /\
  isGenerating (after ev s) = false.
Proof.
  intros Hs. apply AppProofs.settled_not_busy in Hs.
  rename Hs into Hidle.
  unfold after. destruct ev as [h data config | h instruction | |]; cbn [run].
  - unfold handleGenerate.
    destruct (outcome (generateVisualDescription h data (style config)));
      [split; [repeat constructor | reflexivity]|].
    destruct (outcome (generateCoverImage h _ config));
      split; (repeat constructor) || reflexivity.
  - unfold handleRefine.
    destruct (generatedImage s) as [image|]; [|now split].
    destruct (currentConfig s) as [config|]; [|now split].
    destruct (truthy image); [|now split].
    destruct (outcome (refineCoverImage h image instruction config));
      split; (repeat constructor) || reflexivity.
  - split; [constructor | reflexivity].
  - destruct (error_banner s); [split; [constructor | reflexivity] | now split].
Qed.

Lemma handlers_end_not_busy_witness :
  Forall (fun s' => isGenerating s' = true)
    (removelast (run (Refine Scenario.silent_host "Make the background darker")
                   Scenario.generated)) /\
  isGenerating (after (Refine Scenario.silent_host "Make the background darker")
                  Scenario.generated) = false.
Proof.
  apply (handlers_end_not_busy
           (Refine Scenario.silent_host "Make the background darker")
           Scenario.generated).
  unfold Scenario.generated. apply settled_after, settled_initial.
Defined.

(** X14. With no API key configured a generation stops at its first
    stage: the session ends in [error] showing the missing-key
    message, with no prompt and no image. *)
Theorem generation_without_api_key h data config s :
  truthy_opt (API_KEY h) = false ->
  after (Generate h data config) s
    = {| status := error; currentData := Some data;
         currentConfig := Some config; generatedImage := None;
         generatedPrompt := None;
         errorMessage :=
           Some "API Key is missing. Please configure process.env.API_KEY." |}.
Proof.
  intros Hkey. unfold after. cbn [run]. unfold handleGenerate.
  rewrite ServiceProofs.outcome_generateVisualDescription, Hkey.
  reflexivity.
Qed.

Lemma generation_without_api_key_witness :
  after (Generate Scenario.keyless_host Scenario.article Scenario.config)
    Scenario.generated
  = {| status := error; currentData := Some Scenario.article;
       currentConfig := Some Scenario.config; generatedImage := None;
       generatedPrompt := None;
       errorMessage :=
         Some "API Key is missing. Please configure process.env.API_KEY." |}.
Proof.
  apply (generation_without_api_key Scenario.keyless_host Scenario.article
           Scenario.config Scenario.generated).
  reflexivity.
Defined.

End AppExtras.

(* ===================================================================== *)
(** * More about the cover editor *)
(* ===================================================================== *)

Module DisplayExtras.

Import JS.
Import ResultDisplay.
Import JSFacts.
Import DisplayProofs.

Local Open Scope Z_scope.

#[local] Arguments String.append !_ _ / : simpl nomatch.

Lemma layout_get_set_ne (l : LayoutState) (k k' : LayoutKey) (p : Position) :
  k <> k' -> layout_get (layout_set l k' p) k = layout_get l k.
Proof. destruct k, k'; intros H; first [reflexivity | congruence]. Qed.

Lemma layout_set_set (l : LayoutState) (k : LayoutKey) (p q : Position) :
  layout_set (layout_set l k p) k q = layout_set l k q.
Proof. now destruct k. Qed.

Lemma or_else_or_else (o : option string) (prev : string) :
  or_else o (or_else o prev) = or_else o prev.
Proof. now destruct o as [[|c v]|]. Qed.

Lemma truthy_or_else_prev (o : option string) (prev : string) :
  truthy prev = true -> truthy (or_else o prev) = true.
Proof. intros H. now destruct o as [[|c v]|]. Qed.

(** X15. The base font-size index of the journal name, the title and
    the author list never grows with the length of the text; every
    base index the cover passes lies between 1 and 12, so with no
    manual offset the effective index is the base index itself. *)
Theorem base_index_shrinks_with_length
    (a b : Z) (m : CoverMetadata) (f : Field) :
  a <= b ->
  getJournalBaseIndex b <= getJournalBaseIndex a /\
  getTitleBaseIndex b <= getTitleBaseIndex a /\
  getAuthorsBaseIndex b <= getAuthorsBaseIndex a /\
  1 <= base_index m f <= 12 /\
  responsive_index ∅ (base_index m f) (field_name f) = base_index m f.
Proof.
  intros Hab.
  assert (1 <= base_index m f <= 12) as Hrange.
  { unfold base_index, getJournalBaseIndex, getTitleBaseIndex,
      getAuthorsBaseIndex.
    destruct f; repeat case_match; lia. }
  unfold getJournalBaseIndex, getTitleBaseIndex, getAuthorsBaseIndex.
  repeat split; try (repeat case_match; lia).
  rewrite responsive_index_clamp, lookup_empty. simpl.
  unfold Spec.clamp. repeat case_match; lia.
Qed.

Lemma base_index_shrinks_with_length_witness :
  getJournalBaseIndex 25 <= getJournalBaseIndex 9 /\
  getTitleBaseIndex 25 <= getTitleBaseIndex 9 /\
  getAuthorsBaseIndex 25 <= getAuthorsBaseIndex 9 /\
  1 <= base_index default_metadata FTitle <= 12 /\
  responsive_index ∅ (base_index default_metadata FTitle) (field_name FTitle)
    = base_index default_metadata FTitle.
Proof.
  apply (base_index_shrinks_with_length 9 25 default_metadata FTitle). lia.
Defined.

Lemma bump_bump (name : string) (d1 d2 : Z) (m : gmap string Z) :
  bump name d2 (bump name d1 m) = bump name (d1 + d2) m.
Proof.
  unfold bump. rewrite lookup_insert_eq, insert_insert_eq. simpl.
  f_equal. lia.
Qed.

(** X16. Font-size changes add up: two changes in a row are one
    change by the sum, so a change followed by its opposite leaves the
    size of every field as it was. *)
Theorem font_size_changes_add_up (d1 d2 : Z) (s : State) :
  handleFontSizeChange d2 (handleFontSizeChange d1 s)
    = handleFontSizeChange (d1 + d2) s /\
  (forall (b : Z) (name : string),
      responsive_index
        (fontOffsets (handleFontSizeChange (- d1) (handleFontSizeChange d1 s)))
        b name
      = responsive_index (fontOffsets s) b name).
Proof.
  assert (forall e1 e2,
             handleFontSizeChange e2 (handleFontSizeChange e1 s)
             = handleFontSizeChange (e1 + e2) s) as Hsum.
  { intros e1 e2. unfold handleFontSizeChange.
    destruct (activeField s) as [f|] eqn:Hf; [|now rewrite Hf].
    destruct (truthy f) eqn:Ht; [|now rewrite Hf, Ht].
    simpl. rewrite Hf, Ht. unfold batch, set. simpl.
    now rewrite bump_bump. }
  split; [apply Hsum|].
  intros b name. rewrite Hsum, Z.add_opp_diag_r.
  unfold handleFontSizeChange.
  destruct (activeField s) as [f|]; [|reflexivity].
  destruct (truthy f); [|reflexivity].
  simpl. unfold responsive_index, bump.
  destruct (decide (f = name)) as [->|Hne].
  - rewrite lookup_insert_eq. simpl. now rewrite Z.add_0_r.
  - now rewrite lookup_insert_ne.
Qed.

(** X17. Typing into a field of the cover replaces that field's text
    and nothing else: the other eight fields, the layout, the stored
    font offsets, the mode and the focus are unchanged. *)
Theorem handleMetadataChange_sets_one_field
    (field : Field) (value : string) (s : State) :
  let s' := handleMetadataChange field value s in
  metadata_get (metadata s') field = value /\
  (forall other, other <> field ->
                 metadata_get (metadata s') other
                 = metadata_get (metadata s) other) /\
  layout s' = layout s /\ fontOffsets s' = fontOffsets s /\
  mode s' = mode s /\ activeField s' = activeField s.
Proof.
  cbv zeta. split; [now destruct field|].
  split; [|now repeat split].
  intros other Hne. destruct field, other; first [reflexivity | congruence].
Qed.

(** X18. The metadata sync is idempotent (merging the same article
    record a second time changes nothing) and never empties a field:
    whatever was non-empty on the cover is non-empty after the merge. *)
Theorem merge_article_idempotent (toUpperCase : string -> string)
    (R : Types.ArticleData) (M : CoverMetadata) :
  merge_article toUpperCase R (merge_article toUpperCase R M)
    = merge_article toUpperCase R M /\
  (forall f, truthy (metadata_get M f) = true ->
             truthy (metadata_get (merge_article toUpperCase R M) f) = true).
Proof.
  split.
  - unfold merge_article.
    cbn [journalName date volumeInfo website tag title authors footer doi].
    now rewrite !or_else_or_else.
  - intros f Hf. unfold merge_article.
    destruct f;
      cbn [metadata_get journalName date volumeInfo website tag title
             authors footer doi] in *;
      try exact Hf; now apply truthy_or_else_prev.
Qed.

Lemma step_without_drag (s : State) (ev : pointer_event) :
  draggingKey s = None ->
  mode s = edit \/ Spec.is_mouse_down ev = false ->
  pointer_step s ev = s.
Proof.
  intros Hnone Hor. destruct ev as [key cx cy | cx cy | cx cy |]; simpl.
  - destruct Hor as [Hedit | Hdown]; [|discriminate Hdown].
    unfold handleMouseDown. now rewrite Hedit.
  - unfold handleMouseMove. now rewrite Hnone.
  - now rewrite Hnone.
  - now rewrite Hnone.
Qed.

(** X19. Releasing the button always ends the drag; and while no
    group is being dragged, pointer events change nothing at all,
    either because the editor is in [edit] mode or because none of
    them is a press: moves and releases alone never move a group. *)
Theorem nothing_moves_without_a_drag :
  (forall s, draggingKey (pointer_step s MouseUp) = None /\
             layout (pointer_step s MouseUp) = layout s) /\
  (forall evs s,
      draggingKey s = None ->
      mode s = edit \/ Forall (fun ev => Spec.is_mouse_down ev = false) evs ->
      pointer_run evs s = s).
Proof.
  split.
  - intros s. simpl. destruct (draggingKey s) eqn:E; [now split|].
    now split.
  - induction evs as [|ev evs IH]; intros s Hnone Hor; [reflexivity|].
    unfold pointer_run. cbn [fold_left].
    rewrite step_without_drag; [apply IH; [exact Hnone|] | exact Hnone |].
    + destruct Hor as [H | H]; [now left | right; now inversion H].
    + destruct Hor as [H | H]; [now left | right; now inversion H].
Qed.

Lemma nothing_moves_without_a_drag_witness :
  pointer_run Scenario.hover (mounted Scenario.canvas)
    = mounted Scenario.canvas.
Proof.
  apply (proj2 nothing_moves_without_a_drag Scenario.hover
           (mounted Scenario.canvas)); [reflexivity | now left].
Defined.

Lemma step_keeps_other_groups (s : State) (ev : pointer_event) (k : LayoutKey) :
  draggingKey s <> Some k ->
  Spec.presses k ev = false ->
  draggingKey (pointer_step s ev) <> Some k /\
  layout_get (layout (pointer_step s ev)) k = layout_get (layout s) k.
Proof.
  intros Hk Hpress. destruct ev as [key cx cy | cx cy | cx cy |]; simpl.
  - unfold handleMouseDown. destruct (mode s); [now split|]. simpl.
    split; [|reflexivity]. intros [= ->]. now destruct k.
  - unfold handleMouseMove.
    destruct (draggingKey s) as [k'|] eqn:Hdrag; [|now rewrite Hdrag].
    destruct (dragStartRef s); [|now rewrite Hdrag].
    destruct (containerRef s); [|now rewrite Hdrag]. simpl.
    rewrite Hdrag. split; [exact Hk|]. apply layout_get_set_ne. congruence.
  - destruct (draggingKey s) as [k'|] eqn:Hdrag; [|now rewrite Hdrag].
    unfold handleWindowMouseMove. rewrite Hdrag.
    destruct (dragStartRef s); [|now rewrite Hdrag].
    destruct (containerRef s); [|now rewrite Hdrag]. simpl.
    rewrite Hdrag. split; [exact Hk|]. apply layout_get_set_ne. congruence.
  - destruct (draggingKey s) eqn:Hdrag; simpl; [now split|].
    now rewrite Hdrag.
Qed.

(** X20. A group moves only if it is pressed: over any sequence of
    pointer events that contains no press on group [k], started while
    [k] is not being dragged, the position of [k] stays what it was
    (dragging one group never moves another). *)
Theorem only_pressed_groups_move
    (evs : list pointer_event) (s : State) (k : LayoutKey) :
  draggingKey s <> Some k ->
  Forall (fun ev => Spec.presses k ev = false) evs ->
  layout_get (layout (pointer_run evs s)) k = layout_get (layout s) k.
Proof.
  revert s. induction evs as [|ev evs IH]; intros s Hk Hevs; [reflexivity|].
  inversion Hevs as [|? ? Hev Hrest]; subst.
  destruct (step_keeps_other_groups s ev k Hk Hev) as [Hk' Hsame].
  unfold pointer_run. cbn [fold_left].
  fold (pointer_run evs (pointer_step s ev)).
  now rewrite IH.
Qed.

Lemma only_pressed_groups_move_witness :
  layout_get
    (layout (pointer_run Scenario.drag_tag_then_hover Scenario.arranging))
    KHeader
  = layout_get (layout Scenario.arranging) KHeader.
Proof.
  apply (only_pressed_groups_move Scenario.drag_tag_then_hover
           Scenario.arranging KHeader).
  - discriminate.
  - repeat constructor.
Defined.

(** X21. Moves do not accumulate: each handler places the group from
    the origin captured at the press, so after two moves in a row
    (through either handler) the state is the one the second move
    alone gives. *)
Theorem last_move_wins (s : State) (x1 y1 x2 y2 : float) :
  handleMouseMove x2 y2 (handleMouseMove x1 y1 s) = handleMouseMove x2 y2 s /\
  handleMouseMove x2 y2 (handleWindowMouseMove x1 y1 s)
    = handleMouseMove x2 y2 s /\
  handleWindowMouseMove x2 y2 (handleMouseMove x1 y1 s)
    = handleWindowMouseMove x2 y2 s /\
  handleWindowMouseMove x2 y2 (handleWindowMouseMove x1 y1 s)
    = handleWindowMouseMove x2 y2 s.
Proof.
  unfold handleMouseMove, handleWindowMouseMove.
  destruct (draggingKey s) as [k|] eqn:Hk;
    [|rewrite !Hk; now repeat split].
  destruct (dragStartRef s) as [start|] eqn:Hstart;
    [|rewrite !Hk, !Hstart; now repeat split].
  destruct (containerRef s) as [rect|] eqn:Hrect;
    [|rewrite !Hk, !Hstart, !Hrect; now repeat split].
  simpl. rewrite !Hk, !Hstart, !Hrect.
  unfold batch, set. simpl. rewrite !layout_set_set. now repeat split.
Qed.

Lemma replace_non_alnum_length (s : string) :
  String.length (replace_non_alnum "_" s) = String.length s.
Proof. induction s as [|c s IH]; simpl; [reflexivity | now rewrite IH]. Qed.

Lemma replace_non_alnum_safe (s : string) :
  Spec.all_chars Spec.file_name_char (replace_non_alnum "_" s) = true.
Proof.
  induction s as [|c s IH]; simpl; [reflexivity|].
  rewrite IH, andb_true_r. unfold Spec.file_name_char.
  destruct (is_lower c || is_upper c || is_digit c) eqn:E.
  - now rewrite E.
  - reflexivity.
Qed.

Lemma replace_non_alnum_alnum (s : string) :
  Spec.all_chars Spec.is_alnum s = true -> replace_non_alnum "_" s = s.
Proof.
  induction s as [|c s IH]; simpl; [reflexivity|].
  intros H. apply andb_prop in H. destruct H as [Hc Hs].
  unfold Spec.is_alnum in Hc. rewrite Hc. now rewrite IH.
Qed.

Lemma replace_non_alnum_idempotent (s : string) :
  replace_non_alnum "_" (replace_non_alnum "_" s) = replace_non_alnum "_" s.
Proof.
  induction s as [|c s IH]; simpl; [reflexivity|].
  rewrite IH. f_equal.
  destruct (is_lower c || is_upper c || is_digit c) eqn:E.
  - now rewrite E.
  - reflexivity.
Qed.

(** X22. The name the PDF is saved under is safe for a file system:
    it is the journal name with every character that is not an ASCII
    letter or digit replaced by an underscore (same length, letters,
    digits and underscores only, an alphanumeric name unchanged,
    sanitising twice the same as once), followed by [_Cover.pdf]. *)
Theorem export_file_name_is_safe (m : CoverMetadata) :
  let base := replace_non_alnum "_" (journalName m) in
  export_file_name m = base +:+ "_Cover.pdf" /\
  String.length base = String.length (journalName m) /\
  Spec.all_chars Spec.file_name_char base = true /\
  replace_non_alnum "_" base = base /\
  (Spec.all_chars Spec.is_alnum (journalName m) = true ->
   base = journalName m).
Proof.
  cbv zeta. split; [reflexivity|].
  split; [apply replace_non_alnum_length|].
  split; [apply replace_non_alnum_safe|].
  split; [apply replace_non_alnum_idempotent | apply replace_non_alnum_alnum].
Qed.

(** X23. An export that runs either saves the document once, as an
    A4 page of 210 by 297 under the sanitised name, and shows no
    alert, or (when the capture or the writing throws) saves nothing,
    logs the failure and shows the one alert. *)
Theorem export_saves_or_alerts (w : Exporter) (s : State) (rect : DOMRect) :
  containerRef s = Some rect ->
  let effects := snd (handleDownloadPdf w s) in
  (Spec.export_succeeds w (metadata s) ->
   exists imgData,
     effects = [ Saved (export_file_name (metadata s)) imgData 210 297 ]) /\
  (~ Spec.export_succeeds w (metadata s) ->
   effects = [ ConsoleError "Export failed";
               Alert "Could not generate PDF. Please try again." ]).
Proof.
  intros Hrect. cbv zeta. unfold handleDownloadPdf. rewrite Hrect. simpl.
  unfold capture_and_save, Spec.export_succeeds.
  destruct (html2canvas w) as [e|imgData].
  - split; [intros (i & H & _); discriminate H | reflexivity].
  - destruct (jsPDF w imgData _) eqn:Hpdf.
    + split; [|reflexivity]. intros (i & [= <-] & H). congruence.
    + split; [eauto|]. intros H. exfalso. apply H. eauto.
Qed.

Lemma export_saves_or_alerts_witness :
  (Spec.export_succeeds Scenario.working_exporter (metadata Scenario.arranging) ->
   exists imgData,
     snd (handleDownloadPdf Scenario.working_exporter Scenario.arranging)
     = [ Saved (export_file_name (metadata Scenario.arranging)) imgData
           210 297 ]) /\
  (~ Spec.export_succeeds Scenario.working_exporter
       (metadata Scenario.arranging) ->
   snd (handleDownloadPdf Scenario.working_exporter Scenario.arranging)
   = [ ConsoleError "Export failed";
       Alert "Could not generate PDF. Please try again." ]).
Proof.
  apply (export_saves_or_alerts Scenario.working_exporter Scenario.arranging
           Scenario.canvas).
  reflexivity.
Defined.

(** X24. Apart from the exporting flag, the only thing an export
    changes in the editor is the focus: the field in focus is cleared
    and not restored, while mode, layout, font offsets, metadata and
    drag state come out as they went in. *)
Theorem export_clears_focus_only (w : Exporter) (s : State) (rect : DOMRect) :
  containerRef s = Some rect ->
  after_export w s = batch [ setIsExporting false; setActiveField None ] s.
Proof.
  intros Hrect. unfold after_export, handleDownloadPdf. rewrite Hrect.
  reflexivity.
Qed.

Lemma export_clears_focus_only_witness :
  after_export Scenario.failing_exporter
    (batch [ setActiveField (Some "title") ] Scenario.arranging)
  = batch [ setIsExporting false; setActiveField None ]
      (batch [ setActiveField (Some "title") ] Scenario.arranging).
Proof.
  apply (export_clears_focus_only Scenario.failing_exporter
           (batch [ setActiveField (Some "title") ] Scenario.arranging)
           Scenario.canvas).
  reflexivity.
Defined.

End DisplayExtras.

(* ===================================================================== *)
(** * The input panel *)
(* ===================================================================== *)

Module InputExtras.

Import JS.
Import InputSection.
Import JSFacts.

#[local] Arguments String.append !_ _ / : simpl nomatch.

Lemma strip_tags_from_no_open (b : bool) (s : string) :
  Spec.all_chars Spec.not_tag_open (strip_tags_from b s) = true.
Proof.
  revert b. induction s as [|c s IH]; intros b; simpl; [reflexivity|].
  destruct b; [apply IH|].
  destruct (Ascii.eqb c "<") eqn:E; [apply IH|].
  simpl. unfold Spec.not_tag_open at 1. now rewrite E, IH.
Qed.

Lemma strip_tags_from_plain (s : string) :
  Spec.all_chars Spec.not_tag_open s = true -> strip_tags_from false s = s.
Proof.
  induction s as [|c s IH]; simpl; [reflexivity|].
  unfold Spec.not_tag_open at 1.
  destruct (Ascii.eqb c "<"); simpl; [discriminate|].
  intros H. now rewrite IH.
Qed.

Lemma strip_tags_from_length (b : bool) (s : string) :
  (String.length (strip_tags_from b s) <= String.length s)%nat.
Proof.
  revert b. induction s as [|c s IH]; intros b; simpl; [lia|].
  destruct b; [specialize (IH (negb (Ascii.eqb c ">"))); lia|].
  destruct (Ascii.eqb c "<"); simpl.
  - specialize (IH true). lia.
  - specialize (IH false). lia.
Qed.

(** X25. The cleaning of a fetched abstract removes every tag: its
    result holds no [<] at all (so cleaning it again changes
    nothing), is never longer than the input, and a text without [<]
    comes through unchanged. *)
Theorem strip_tags_removes_every_tag (s : string) :
  Spec.all_chars Spec.not_tag_open (strip_tags s) = true /\
  strip_tags (strip_tags s) = strip_tags s /\
  (String.length (strip_tags s) <= String.length s)%nat /\
  (Spec.all_chars Spec.not_tag_open s = true -> strip_tags s = s).
Proof.
  unfold strip_tags. split; [apply strip_tags_from_no_open|].
  split; [apply strip_tags_from_plain, strip_tags_from_no_open|].
  split; [apply strip_tags_from_length | apply strip_tags_from_plain].
Qed.

(** Markup is dropped with its contents up to the closing bracket; an
    unclosed tag swallows the rest of the text. *)
Example strip_tags_examples :
  strip_tags "<jats:p>We report <i>a</i> coating.</jats:p>"
    = "We report a coating." /\
  strip_tags "x > 1 and y <2, z" = "x > 1 and y ".
Proof. split; reflexivity. Qed.

Lemma truthy_false_iff (v : string) : negb (truthy v) = true <-> v = "".
Proof. destruct v; simpl; split; congruence. Qed.

(** X26. The Generate button submits only a record with a title and
    a content: with either one empty the click sets the validation
    message, calls nothing and leaves the form as it is; otherwise it
    clears the message and hands over exactly the form's fields and
    the selected configuration. *)
Theorem submit_needs_title_and_content (s : State) :
  (title s = "" \/ content s = "" ->
   handleGenerateClick s
     = (batch [ setError
                  (Some "Please provide a title and content/abstract.") ] s,
        None)) /\
  (title s <> "" /\ content s <> "" ->
   handleGenerateClick s
     = (batch [ setError None ] s,
        Some ({| Types.title := title s; Types.content := content s;
                 Types.doi := Some (doi s);
                 Types.authors := Some (authors s);
                 Types.journalName := Some (journalName s) |},
              {| Types.model := model s; Types.style := selectedStyle s;
                 Types.aspectRatio := aspectRatio s |}))) /\
  (forall data config,
      snd (handleGenerateClick s) = Some (data, config) ->
      Types.title data <> "" /\ Types.content data <> "").
Proof.
  unfold handleGenerateClick.
  destruct (title s) as [|c t] eqn:Ht; simpl.
  - split; [reflexivity|]. split; [intros [H _]; congruence | discriminate].
  - destruct (content s) as [|c' t'] eqn:Hc; simpl.
    + split; [reflexivity|]. split; [intros [_ H]; congruence | discriminate].
    + split; [intros [H | H]; discriminate H|].
      split; [reflexivity|].
      intros data config [= <- _]. simpl. split; discriminate.
Qed.

Lemma batch_app (us vs : list setter) (s : State) :
  batch (us ++ vs) s = batch vs (batch us s).
Proof. unfold batch. apply fold_left_app. Qed.

(** A conditional setter of the authors or of the journal name leaves
    the title, the content, the tab, the DOI and the flags alone. *)
Lemma when_truthy_frame (toUpperCase : string -> string)
    (v : option string) (f : string -> setter) (s : State) :
  (forall x, f x = setAuthors x) \/
  (forall x, f x = setJournalName (toUpperCase x)) ->
  let s' := batch (when_truthy v f) s in
  title s' = title s /\ content s' = content s /\
  activeTab s' = activeTab s /\ doi s' = doi s /\ error s' = error s /\
  doiLoading s' = doiLoading s /\ fileLoading s' = fileLoading s.
Proof.
  intros Hf. unfold when_truthy.
  destruct v as [x|]; [|now repeat split].
  destruct (truthy x); [|now repeat split].
  destruct Hf as [Hf | Hf]; cbv zeta; unfold batch; simpl; rewrite Hf;
    now repeat split.
Qed.

Lemma after_doi_fetched (toUpperCase : string -> string)
    (data : Types.ArticleData) (s : State) :
  let s' := batch (doi_fetched toUpperCase data ++ [ setDoiLoading false ]) s in
  title s' = Types.title data /\
  content s' = strip_tags (Types.content data) /\
  activeTab s' = text_tab /\ doi s' = doi s /\ error s' = error s /\
  doiLoading s' = false.
Proof.
  cbv zeta. unfold doi_fetched.
  rewrite !batch_app.
  set (s1 := batch [ setTitle _; setContent _ ] s).
  set (s2 := batch (when_truthy (Types.authors data) setAuthors) s1).
  set (s3 := batch (when_truthy (Types.journalName data) _) s2).
  destruct (when_truthy_frame toUpperCase (Types.authors data) setAuthors s1)
    as (A1 & A2 & A3 & A4 & A5 & A6 & A7); [now left|].
  destruct (when_truthy_frame toUpperCase (Types.journalName data)
              (fun v => setJournalName (toUpperCase v)) s2)
    as (B1 & B2 & B3 & B4 & B5 & B6 & B7); [now right|].
  fold s2 in A1, A2, A3, A4, A5, A6, A7.
  fold s3 in B1, B2, B3, B4, B5, B6, B7.
  unfold batch at 1 2. simpl.
  rewrite B1, B2, B4, B5, A1, A2, A4, A5. now repeat split.
Qed.

(** X27. A DOI lookup from the input panel: with the DOI field empty
    the handler does nothing; otherwise it always ends with the
    loading flag cleared and the typed DOI kept. When the lookup
    fails, the form is untouched and the one failure message is
    shown; when it succeeds, the panel switches to the text tab with
    no message, a non-empty title and the abstract free of tags. *)
Theorem doi_fetch_outcomes (toUpperCase : string -> string)
    (fetch : string -> exn + GeminiService.FetchResponse) (s : State) :
  (doi s = "" -> handleDoiFetch toUpperCase fetch s = []) /\
  (doi s <> "" ->
   let s' := List.last (handleDoiFetch toUpperCase fetch s) s in
   doiLoading s' = false /\ doi s' = doi s /\
   (forall e,
       GeminiService.fetchDoiMetadata fetch (doi s) = inl e ->
       s' = batch [ setError
                      (Some "Failed to fetch DOI. Please enter details manually.");
                    setDoiLoading false ] s) /\
   (forall record,
       GeminiService.fetchDoiMetadata fetch (doi s) = inr record ->
       activeTab s' = text_tab /\ error s' = None /\
       title s' = Types.title record /\ title s' <> "" /\
       content s' = strip_tags (Types.content record) /\
       Spec.all_chars Spec.not_tag_open (content s') = true)).
Proof.
  unfold handleDoiFetch. split.
  - now intros ->.
  - intros Hdoi. apply truthy_true in Hdoi. rewrite Hdoi. cbv zeta.
    cbn [List.last].
    destruct (GeminiService.fetchDoiMetadata fetch (doi s))
      as [e|record] eqn:Hfetch.
    + split; [reflexivity|]. split; [reflexivity|].
      split; [reflexivity | discriminate].
    + destruct (after_doi_fetched toUpperCase record
                  (batch [ setDoiLoading true; setError None ] s))
        as (H1 & H2 & H3 & H4 & H5 & H6).
      split; [exact H6|]. split; [exact H4|].
      split; [discriminate|].
      intros r [= <-]. split; [exact H3|]. split; [exact H5|].
      split; [exact H1|].
      split; [rewrite H1;
              apply (ServiceExtras.fetchDoiMetadata_record _ _ _ Hfetch)|].
      split; [exact H2|]. rewrite H2. apply strip_tags_from_no_open.
Qed.

Lemma doi_fetch_outcomes_witness :
  let s' := List.last
              (handleDoiFetch toUpperCase_ascii Scenario.crossref
                 Scenario.doi_typed)
              Scenario.doi_typed in
  doiLoading s' = false /\ doi s' = doi Scenario.doi_typed /\
  (forall e,
      GeminiService.fetchDoiMetadata Scenario.crossref (doi Scenario.doi_typed)
        = inl e ->
      s' = batch [ setError
                     (Some "Failed to fetch DOI. Please enter details manually.");
                   setDoiLoading false ] Scenario.doi_typed) /\
  (forall record,
      GeminiService.fetchDoiMetadata Scenario.crossref (doi Scenario.doi_typed)
        = inr record ->
      activeTab s' = text_tab /\ error s' = None /\
      title s' = Types.title record /\ title s' <> "" /\
      content s' = strip_tags (Types.content record) /\
      Spec.all_chars Spec.not_tag_open (content s') = true).
Proof.
  apply (proj2 (doi_fetch_outcomes toUpperCase_ascii Scenario.crossref
                  Scenario.doi_typed)).
  discriminate.
Defined.

(** The lookup of the sample article fills the form. *)
Example doi_fetch_fills_the_form :
  let s' := List.last
              (handleDoiFetch toUpperCase_ascii Scenario.crossref
                 Scenario.doi_typed)
              Scenario.doi_typed in
  title s' = "Slippery coatings" /\ content s' = "We report a coating." /\
  authors s' = "Ling Yin, Tao Zhang" /\ journalName s' = "ADVANCED SCIENCE" /\
  activeTab s' = text_tab /\
  snd (handleGenerateClick s') <> None.
Proof. repeat split; discriminate. Qed.

Lemma before_first_dot_prefix (name : string) :
  exists rest, name = before_first_dot name +:+ rest.
Proof.
  induction name as [|c name [rest IH]]; [now exists ""|]. simpl.
  destruct (Ascii.eqb c "."); [now eexists|].
  exists rest. simpl. now rewrite <- IH.
Qed.

(** X28. A file upload: with no file chosen nothing happens. For a
    PDF the loading flag is always cleared in the end, and a failed
    extraction or a failed read only sets a message. For any other
    file the text that was read becomes the content and the part of
    the file name before its first dot the title, but only when that
    text is non-empty: an empty file, or a failed read, leaves the
    loading flag set, and with it the Generate button disabled. *)
Theorem file_upload_outcomes (toUpperCase : string -> string)
    (extract : string -> exn + Types.ArticleData)
    (file : File) (read : ReadResult) (s : State) :
  let s' :=
    List.last (handleFileUpload toUpperCase extract (Some file) read s) s in
  handleFileUpload toUpperCase extract None read s = [] /\
  (file_type file = "application/pdf" ->
   fileLoading s' = false /\
   (read = ReadError ->
    s' = batch [ setError (Some "Failed to read file.");
                 setFileLoading false ] s) /\
   (forall base64 e,
       read = Loaded base64 -> extract base64 = inl e ->
       s' = batch [ setError
                      (Some "Failed to analyze PDF with AI. Please try pasting text.");
                    setFileLoading false ] s)) /\
  (file_type file <> "application/pdf" ->
   (forall result,
       read = Loaded result -> result <> "" ->
       s' = batch [ setError None; setContent result;
                    setTitle (before_first_dot (file_name file));
                    setActiveTab text_tab; setFileLoading false ] s) /\
   (read = ReadError \/ read = Loaded "" ->
    s' = batch [ setError None; setFileLoading true ] s /\
    forall isGenerating, generate_disabled isGenerating s' = true)).
Proof.
  cbv zeta. split; [reflexivity|]. unfold handleFileUpload. split.
  - intros Hpdf. rewrite Hpdf. cbn [String.eqb Ascii.eqb Bool.eqb].
    change (String.eqb "application/pdf" "application/pdf") with true.
    cbv iota.
    destruct read as [base64|].
    + split; [|split; [discriminate|]].
      * cbn [List.last]. rewrite batch_app. reflexivity.
      * intros b e [= <-] He. rewrite He. reflexivity.
    + split; [reflexivity|]. split; [reflexivity | discriminate].
  - intros Hpdf. apply String.eqb_neq in Hpdf. rewrite Hpdf. split.
    + intros result -> Hresult. apply truthy_true in Hresult.
      rewrite Hresult. reflexivity.
    + intros [-> | ->]; (split; [reflexivity|]);
        intros b; unfold generate_disabled; simpl; apply orb_true_r.
Qed.

(** An empty notes file leaves the panel loading for good. *)
Example empty_text_file_keeps_loading :
  let s' := List.last
              (handleFileUpload toUpperCase_ascii
                 (fun _ => inl (Rejected None))
                 (Some Scenario.notes_file) (Loaded "") initial) initial in
  fileLoading s' = true /\ generate_disabled false s' = true /\
  before_first_dot (file_name Scenario.notes_file) = "abstract".
Proof. repeat split. Qed.

End InputExtras.
